(** * SublimeLinter3: the plugin's event listener (sublimelinter.py)

    A shallow embedding of the [SublimeLinter] class: the tracker maps it
    owns ([loaded_views], [linted_views], [view_syntax], [last_hit_times]),
    the parts of the [persist] module it reads and writes, and its event
    handlers, followed by the properties of the lint scheduling and of the
    status line. *)

From stdpp Require Import base gmap sets list strings pretty sorting.
From Stdlib Require Import ZArith Ascii.

Local Open Scope string_scope.
Local Open Scope Z_scope.
Local Open Scope list_scope.

(** ** Python values *)

(** Exceptions the modelled statements can raise. *)
Inductive exn := IndexError | KeyError | ValueError | AttributeError.

Global Instance exn_eq_dec : EqDecision exn.
Proof. solve_decision. Defined.

(** Outcome of a statement: it returns, or an exception leaves the function. *)
Inductive result (A : Type) :=
  | Ok (x : A)
  | Raise (e : exn).
Arguments Ok {A} x.
Arguments Raise {A} e.

Global Instance result_ret : MRet result := λ A x, Ok x.

Global Instance result_bind : MBind result := λ A B k r,
  match r with
  | Ok x => k x
  | Raise e => Raise e
  end.

(** [try: body except e: handler]. *)
Definition try_except {A} (body : result A) (e : exn) (handler : result A)
  : result A :=
  match body with
  | Ok x => Ok x
  | Raise e' => if decide (e' = e) then handler else Raise e'
  end.

(** [l[i]] on a list, for a non-negative literal index. *)
Definition getitem {A} (l : list A) (i : nat) : result A :=
  match l !! i with
  | Some x => Ok x
  | None => Raise IndexError
  end.

(** [d[k]] on a dict. *)
Definition subscript {A} (d : gmap Z A) (k : Z) : result A :=
  match d !! k with
  | Some x => Ok x
  | None => Raise KeyError
  end.

(** [l.index(x)]: position of the first occurrence. *)
Fixpoint list_index (l : list Z) (x : Z) : result nat :=
  match l with
  | [] => Raise ValueError
  | y :: l' => if decide (y = x) then Ok 0%nat
               else (i ← list_index l' x; Ok (S i))
  end.

(** [s.remove(x)] on a set. *)
Definition set_remove (x : Z) (s : gset Z) : result (gset Z) :=
  if decide (x ∈ s) then Ok (s ∖ {[x]}) else Raise KeyError.

(** [del d[k]] on a dict. *)
Definition dict_del {A} (k : Z) (d : gmap Z A) : result (gmap Z A) :=
  match d !! k with
  | Some _ => Ok (delete k d)
  | None => Raise KeyError
  end.

(** [sorted(l, key=key)]: Python's sort is stable, as is this insertion
    sort: an element is placed before the first later element whose key is
    not smaller. *)
Section Sorted.
Context {A : Type} (key : A → Z).

Fixpoint insert_by (x : A) (l : list A) : list A :=
  match l with
  | [] => [x]
  | y :: l' => if key x <=? key y then x :: l else y :: insert_by x l'
  end.

Definition sorted (l : list A) : list A := foldr insert_by [] l.
End Sorted.

(** [sum(l)] on a list of integers. *)
Definition sum (l : list Z) : Z := foldr Z.add 0 l.

(** [len(l)]. *)
Definition len {A} (l : list A) : Z := Z.of_nat (length l).

(** [sep.join(l)]. *)
Definition join (sep : string) (l : list string) : string := String.concat sep l.

(** [os.path] on POSIX paths, and the match of [LINTER_SETTINGS_RE]. *)
Module os_path.
(** The path up to and including its last slash, and the rest. *)
Fixpoint cut (p : string) : option (string * string) :=
  match p with
  | EmptyString => None
  | String c p' =>
    match cut p' with
    | Some (head, tail) => Some (String c head, tail)
    | None => if decide (c = "/"%char) then Some ("/", p') else None
    end
  end.

Fixpoint rstrip_sep (p : string) : string :=
  match p with
  | EmptyString => EmptyString
  | String c p' =>
    match rstrip_sep p' with
    | EmptyString => if decide (c = "/"%char) then EmptyString else String c EmptyString
    | rest => String c rest
    end
  end.

Definition split (p : string) : string * string :=
  match cut p with
  | Some (head, tail) =>
    (if decide (rstrip_sep head = "") then head else rstrip_sep head, tail)
  | None => ("", p)
  end.

Definition basename (p : string) : string := (split p).2.
Definition dirname (p : string) : string := (split p).1.

Definition endswith_sep (p : string) : bool :=
  match cut p with
  | Some (_, EmptyString) => true
  | _ => false
  end.

Definition join (a b : string) : string :=
  if String.prefix "/" b then b
  else if bool_decide (a = "") || endswith_sep a then (a ++ b)%string
  else (a ++ "/" ++ b)%string.
End os_path.

(** [re.match('^SublimeLinter(-.+?)?\.sublime-settings', filename)]. *)
Module LINTER_SETTINGS_RE.
(** [.+?] then the suffix: at least one character other than a newline. *)
Fixpoint some_then (suffix s : string) : bool :=
  match s with
  | EmptyString => false
  | String c s' =>
    if decide (c = "010"%char) then false
    else String.prefix suffix s' || some_then suffix s'
  end.

Definition is_match (filename : string) : bool :=
  String.prefix "SublimeLinter" filename &&
  let rest := String.substring 13 (String.length filename - 13)%nat filename in
  (String.prefix ".sublime-settings" rest
   || match rest with
      | String "-" rest' => some_then ".sublime-settings" rest'
      | _ => false
      end).
End LINTER_SETTINGS_RE.

(** ** Editor and linter objects *)

(** [sublime.Region]. *)
Record Region := { region_a : Z; region_b : Z }.

Definition begin (r : Region) : Z := Z.min (region_a r) (region_b r).

(** What a handler can ask of the [sublime.View] it is given. *)
Record View := {
  view_id : Z;                              (* view.id() *)
  view_size : Z;                            (* view.size() *)
  view_sel : list Region;                   (* view.sel() *)
  view_rowcol : Z → Z * Z;                  (* view.rowcol(point) *)
  view_file_name : option string;           (* view.file_name() *)
  view_project_file_name : option string;   (* view.window().project_file_name() *)
  view_is_active : bool;                    (* view.window().active_view() == view *)
  view_find_by_selector : string → list Region;
  view_text : string;                       (* Linter.text(view) *)
  syntax : string                           (* persist.syntax(view) *)
}.

(** An error of a line: [(col, message)]. *)
Abbreviation error := (Z * string)%type.

(** [linter.errors], and the values of [persist.errors]: line -> errors. *)
Abbreviation errors_dict := (gmap Z (list error)).

Record HighlightRegion := { hl_line : Z; hl_start : Z; hl_end : Z }.

(** The marks of one linter. *)
Abbreviation Highlight := (list HighlightRegion).

(** [HighlightSet]: the highlights added to it, in the order of the calls. *)
Abbreviation HighlightSet := (list Highlight).

Definition HighlightSet_add (h : Highlight) (hs : HighlightSet) : HighlightSet :=
  hs ++ [h].

(** A linter instance after a lint: [linter.highlight] is [None] when it is
    falsy. *)
Record Linter := {
  linter_name : string;
  linter_selectors : list string;
  linter_highlight : option Highlight;
  linter_errors : errors_dict
}.

(** Calls made on the editor, in the order they are made. *)
Inductive ui_event :=
  | Clear (vid : Z) (hs : HighlightSet)      (* highlights.clear(view) *)
  | Draw (vid : Z) (hs : HighlightSet)       (* highlights.draw(view) *)
  | SetStatus (vid : Z) (text : string)      (* view.set_status('sublimelinter', text) *)
  | EraseStatus (vid : Z)                    (* view.erase_status('sublimelinter') *)
  | ClearRendering (vid : Z)                 (* marks and status removed by Linter.clear_view *)
  | RunCommand (vid : Z) (cmd : string).     (* view.run_command(cmd) *)

(** A call of [Linter.lint_view] whose callback has not run yet. *)
Record LintRequest := {
  req_view_id : Z;
  req_filename : option string;
  req_code : string;
  req_sections : gmap string (list (Z * Z * Z));
  req_hit_time : option Z
}.

(** ** The state: the plugin instance, [persist], and the editor *)

Record State := mkState {
  (* SublimeLinter.__init__ *)
  loaded_views : gset Z;
  linted_views : gset Z;
  view_syntax : gmap Z string;
  last_hit_times : gmap Z Z;
  (* persist *)
  persist_errors : gmap Z errors_dict;
  persist_highlights : gmap Z HighlightSet;
  persist_linters : gmap Z (list Linter);
  persist_views : gmap Z View;
  lint_mode : string;                        (* persist.settings.get('lint_mode') *)
  show_errors_on_save : bool;                (* persist.settings.get('show_errors_on_save') *)
  queue_clock : Z;                           (* last timestamp minted by persist.queue *)
  queue_pending : gmap Z Z;                  (* the pending request of each view *)
  languages : string → list Linter;          (* linters that can lint a syntax *)
  module_file : string;                      (* __file__ *)
  PLUGIN_DIRECTORY : string;                 (* persist.PLUGIN_DIRECTORY *)
  (* outside *)
  in_flight : list LintRequest;
  ui : list ui_event
}.

Definition set_loaded_views (f : gset Z → gset Z) (s : State) : State :=
  mkState (f (loaded_views s)) (linted_views s) (view_syntax s) (last_hit_times s)
    (persist_errors s) (persist_highlights s) (persist_linters s) (persist_views s)
    (lint_mode s) (show_errors_on_save s) (queue_clock s) (queue_pending s)
    (languages s) (module_file s) (PLUGIN_DIRECTORY s) (in_flight s) (ui s).

Definition set_linted_views (f : gset Z → gset Z) (s : State) : State :=
  mkState (loaded_views s) (f (linted_views s)) (view_syntax s) (last_hit_times s)
    (persist_errors s) (persist_highlights s) (persist_linters s) (persist_views s)
    (lint_mode s) (show_errors_on_save s) (queue_clock s) (queue_pending s)
    (languages s) (module_file s) (PLUGIN_DIRECTORY s) (in_flight s) (ui s).

Definition set_view_syntax (f : gmap Z string → gmap Z string) (s : State) : State :=
  mkState (loaded_views s) (linted_views s) (f (view_syntax s)) (last_hit_times s)
    (persist_errors s) (persist_highlights s) (persist_linters s) (persist_views s)
    (lint_mode s) (show_errors_on_save s) (queue_clock s) (queue_pending s)
    (languages s) (module_file s) (PLUGIN_DIRECTORY s) (in_flight s) (ui s).

Definition set_last_hit_times (f : gmap Z Z → gmap Z Z) (s : State) : State :=
  mkState (loaded_views s) (linted_views s) (view_syntax s) (f (last_hit_times s))
    (persist_errors s) (persist_highlights s) (persist_linters s) (persist_views s)
    (lint_mode s) (show_errors_on_save s) (queue_clock s) (queue_pending s)
    (languages s) (module_file s) (PLUGIN_DIRECTORY s) (in_flight s) (ui s).

Definition set_persist_errors (f : gmap Z errors_dict → gmap Z errors_dict)
  (s : State) : State :=
  mkState (loaded_views s) (linted_views s) (view_syntax s) (last_hit_times s)
    (f (persist_errors s)) (persist_highlights s) (persist_linters s) (persist_views s)
    (lint_mode s) (show_errors_on_save s) (queue_clock s) (queue_pending s)
    (languages s) (module_file s) (PLUGIN_DIRECTORY s) (in_flight s) (ui s).

Definition set_persist_highlights (f : gmap Z HighlightSet → gmap Z HighlightSet)
  (s : State) : State :=
  mkState (loaded_views s) (linted_views s) (view_syntax s) (last_hit_times s)
    (persist_errors s) (f (persist_highlights s)) (persist_linters s) (persist_views s)
    (lint_mode s) (show_errors_on_save s) (queue_clock s) (queue_pending s)
    (languages s) (module_file s) (PLUGIN_DIRECTORY s) (in_flight s) (ui s).

Definition set_persist_linters (f : gmap Z (list Linter) → gmap Z (list Linter))
  (s : State) : State :=
  mkState (loaded_views s) (linted_views s) (view_syntax s) (last_hit_times s)
    (persist_errors s) (persist_highlights s) (f (persist_linters s)) (persist_views s)
    (lint_mode s) (show_errors_on_save s) (queue_clock s) (queue_pending s)
    (languages s) (module_file s) (PLUGIN_DIRECTORY s) (in_flight s) (ui s).

Definition set_persist_views (f : gmap Z View → gmap Z View) (s : State) : State :=
  mkState (loaded_views s) (linted_views s) (view_syntax s) (last_hit_times s)
    (persist_errors s) (persist_highlights s) (persist_linters s) (f (persist_views s))
    (lint_mode s) (show_errors_on_save s) (queue_clock s) (queue_pending s)
    (languages s) (module_file s) (PLUGIN_DIRECTORY s) (in_flight s) (ui s).

Definition set_settings (mode : string) (show : bool) (s : State) : State :=
  mkState (loaded_views s) (linted_views s) (view_syntax s) (last_hit_times s)
    (persist_errors s) (persist_highlights s) (persist_linters s) (persist_views s)
    mode show (queue_clock s) (queue_pending s)
    (languages s) (module_file s) (PLUGIN_DIRECTORY s) (in_flight s) (ui s).

Definition set_queue (clock : Z) (pending : gmap Z Z) (s : State) : State :=
  mkState (loaded_views s) (linted_views s) (view_syntax s) (last_hit_times s)
    (persist_errors s) (persist_highlights s) (persist_linters s) (persist_views s)
    (lint_mode s) (show_errors_on_save s) clock pending
    (languages s) (module_file s) (PLUGIN_DIRECTORY s) (in_flight s) (ui s).

Definition set_in_flight (f : list LintRequest → list LintRequest) (s : State)
  : State :=
  mkState (loaded_views s) (linted_views s) (view_syntax s) (last_hit_times s)
    (persist_errors s) (persist_highlights s) (persist_linters s) (persist_views s)
    (lint_mode s) (show_errors_on_save s) (queue_clock s) (queue_pending s)
    (languages s) (module_file s) (PLUGIN_DIRECTORY s) (f (in_flight s)) (ui s).

(** Append a call on the editor. *)
Definition emit (e : ui_event) (s : State) : State :=
  mkState (loaded_views s) (linted_views s) (view_syntax s) (last_hit_times s)
    (persist_errors s) (persist_highlights s) (persist_linters s) (persist_views s)
    (lint_mode s) (show_errors_on_save s) (queue_clock s) (queue_pending s)
    (languages s) (module_file s) (PLUGIN_DIRECTORY s) (in_flight s) (ui s ++ [e]).

(** ** Collaborators outside sublimelinter.py *)

(** Modelled from the spec: [persist.queue.hit] (lint/queue.py is missing).
    It "mints a new timestamp strictly greater than any previously minted
    value for this process" and "enqueues a debounced analysis request for
    the buffer"; hits of one buffer "collapse into one pending request; only
    the most recent enqueue's parameters are used". *)
Definition queue_hit (view : View) (s : State) : Z * State :=
  let timestamp := queue_clock s + 1 in
  (timestamp,
   set_queue timestamp (<[view_id view := timestamp]> (queue_pending s)) s).

(** Modelled from the spec: [Linter.assign] (lint/linter.py is missing)
    "re-resolves which checker backends apply to the new syntax"; a syntax
    with "zero applicable checkers" leaves the buffer bound to none. The
    spec does not distinguish [reassign]. *)
Definition Linter_assign (view : View) (reassign : bool) (s : State) : State :=
  match languages s (syntax view) with
  | [] => set_persist_linters (delete (view_id view)) s
  | linters => set_persist_linters (<[view_id view := linters]>) s
  end.

(** Modelled from the spec: [Linter.clear_view] (lint/linter.py is missing)
    "discards any previously applied highlights/diagnostics for that buffer
    (clears rendering immediately, does not wait for a new analysis)". *)
Definition Linter_clear_view (view : View) (s : State) : State :=
  let vid := view_id view in
  emit (ClearRendering vid)
    (set_persist_highlights (delete vid) (set_persist_errors (delete vid) s)).

(** Modelled from the spec: [Linter.get_linters] (lint/linter.py is missing),
    "checkersFor(bufferId) -> sequence of checkers". *)
Definition Linter_get_linters (vid : Z) (s : State) : list Linter :=
  default [] (persist_linters s !! vid).

(** Modelled from the spec: [linter.clear] (lint/linter.py is missing): the
    checker "is reset to an empty-result state". *)
Definition linter_clear (linter : Linter) : Linter :=
  {| linter_name := linter_name linter;
     linter_selectors := linter_selectors linter;
     linter_highlight := None;
     linter_errors := ∅ |}.

(** Modelled from the spec: [Linter.get_view] (lint/linter.py is missing): a
    buffer id "with no live buffer" has no view. *)
Definition Linter_get_view (vid : Z) (s : State) : option View :=
  persist_views s !! vid.

(** Modelled from the spec: [Linter.get_selectors] (lint/linter.py is
    missing): the selectors of the checkers bound to the buffer, each with
    its checker. *)
Definition Linter_get_selectors (vid : Z) (s : State) : list (string * Linter) :=
  linter ← Linter_get_linters vid s;
  (λ sel, (sel, linter)) <$> linter_selectors linter.

(** Modelled from the spec: [Linter.lint_view] (lint/linter.py is missing),
    "analyze(bufferId, filePath, content, regionsBySelector, hitTimestamp,
    onComplete) — asynchronous": the request is in flight until its
    completion is delivered. *)
Definition Linter_lint_view (vid : Z) (filename : option string) (code : string)
  (sections : gmap string (list (Z * Z * Z))) (hit_time : option Z) (s : State)
  : State :=
  set_in_flight (λ reqs, reqs ++ [{| req_view_id := vid; req_filename := filename;
                                     req_code := code; req_sections := sections;
                                     req_hit_time := hit_time |}])%list s.

(** Modelled from the spec: [persist.view_did_close] (lint/persist.py is
    missing): "On buffer close, its BufferState and all derived caches are
    deleted entirely". *)
Definition persist_view_did_close (vid : Z) (s : State) : State :=
  set_persist_views (delete vid)
    (set_persist_linters (delete vid)
       (set_persist_highlights (delete vid)
          (set_persist_errors (delete vid) s))).

(** Modelled from the spec: [persist.load_settings] (lint/persist.py is
    missing) belongs to "settings/config file loading and merging"; the
    options [get] returns are [lint_mode] and [show_errors_on_save] of the
    state, which the environment changes. *)
Definition persist_load_settings (s : State) : State := s.

(** Modelled from the spec: [persist.copy_settings] (lint/persist.py is
    missing), part of "settings/config file loading and merging" as well. *)
Definition persist_copy_settings (s : State) : State := s.

(** Modelled from the spec: [persist.update_user_settings] (lint/persist.py
    is missing), part of "settings/config file loading and merging" as
    well. *)
Definition persist_update_user_settings (view : View) (s : State) : State := s.

(** ** class SublimeLinter *)

(** [SublimeLinter.__init__]: the maps of a new instance. *)
Definition init (mode : string) (show : bool) (langs : string → list Linter)
  (file directory : string) : State :=
  mkState ∅ ∅ ∅ ∅ ∅ ∅ ∅ ∅ mode show 0 ∅ langs file directory [] [].

(** [clear]. *)
Definition clear (view : View) (s : State) : State := Linter_clear_view view s.

(** [check_syntax]: the returned boolean and the new state. *)
Definition check_syntax (view : View) (s : State) : bool * State :=
  let vid := view_id view in
  let syntax := syntax view in
  (* Syntax either has never been set or just changed *)
  if match view_syntax s !! vid with
     | None => true
     | Some recorded => bool_decide (recorded ≠ syntax)
     end
  then
    let s := set_view_syntax (<[vid := syntax]>) s in
    let s := Linter_assign view true s in
    let s := clear view s in
    (true, s)
  else (false, s).

(** [hit]. It has no [return] with a value: the timestamp of
    [persist.queue.hit] is kept in [last_hit_times]. *)
Definition hit (view : View) (s : State) : State :=
  let vid := view_id view in
  let s := (check_syntax view s).2 in
  let s := set_linted_views (λ views, views ∪ {[vid]}) s in
  if decide (view_size view = 0) then
    (* for linter in Linter.get_linters(vid): linter.clear() *)
    set_persist_linters (alter (fmap linter_clear) vid) s
  else
    let '(timestamp, s) := queue_hit view s in
    set_last_hit_times (<[vid := timestamp]>) s.

(** [on_selection_modified_async]. *)
Definition on_selection_modified_async (view : View) (s : State) : result State :=
  let vid := view_id view in
  (* Get the line number of the first line of the first selection. *)
  lineno ← try_except
              (region ← getitem (view_sel view) 0;
               Ok (view_rowcol view (begin region)).1)
              IndexError (Ok (-1));
  match persist_errors s !! vid with
  | Some errors =>
    if decide (errors ≠ ∅) then
      let lines := sorted id (map_to_list errors).*1 in
      counts ← mapM (λ line, errs ← subscript errors line; Ok (len errs)) lines;
      let count := sum counts in
      let plural := if decide (count > 1) then "s" else "" in
      status ←
        (if decide (is_Some (errors !! lineno)) then
           (* Sort the errors by column *)
           errs ← subscript errors lineno;
           let line_errors := sorted fst errs in
           let line_errors := snd <$> line_errors in
           status ←
             (if decide (plural ≠ "") then
                (* Sum the errors before the first error on this line *)
                index ← list_index lines lineno;
                let first := sum (take index counts) + 1 in
                if decide (len line_errors > 1) then
                  let last := first + len line_errors - 1 in
                  Ok (pretty first ++ "-" ++ pretty last ++ " of "
                        ++ pretty count ++ " errors: ")%string
                else
                  Ok (pretty first ++ " of " ++ pretty count ++ " errors: ")%string
              else Ok "Error: ");
           Ok (status ++ join "; " line_errors)%string
         else
           Ok (pretty count ++ " error" ++ plural)%string);
      Ok (emit (SetStatus vid status) s)
    else
      Ok (emit (EraseStatus vid) s)
  | None => Ok s
  end.

(** The inner loop of [highlight]:
    [for line, errs in linter.errors.items():
         errors.setdefault(line, []).extend(errs)]. *)
Definition extend_errors (errors linter_errors : errors_dict) : errors_dict :=
  map_fold (λ line errs errors,
              <[line := (default [] (errors !! line) ++ errs)%list]> errors)
           errors linter_errors.

(** What one linter adds to [errors] in the loop of [highlight]:
    [if linter.errors: ...]. *)
Definition collect_errors (errors : errors_dict) (linter : Linter) : errors_dict :=
  if decide (linter_errors linter ≠ ∅)
  then extend_errors errors (linter_errors linter)
  else errors.

(** One turn of the loop of [highlight] over the linters. [highlights] is
    the object stored at [persist.highlights[vid]], so adding to it changes
    the stored set; [errors] is local. *)
Definition highlight_linter (vid : Z) (acc : State * errors_dict)
  (linter : Linter) : State * errors_dict :=
  let '(s, errors) := acc in
  let s :=
    match linter_highlight linter with
    | Some h => set_persist_highlights (alter (HighlightSet_add h) vid) s
    | None => s
    end in
  (s, collect_errors errors linter).

(** [highlight]: highlight any errors found during a lint. *)
Definition highlight (view : View) (linters : list Linter) (hit_time : option Z)
  (s : State) : result State :=
  let vid := view_id view in
  (* highlights = persist.highlights[vid] = HighlightSet() *)
  let s := set_persist_highlights (<[vid := []]>) s in
  let '(s, errors) := foldl (highlight_linter vid) (s, ∅) linters in
  let highlights := default [] (persist_highlights s !! vid) in
  (* If the view has been modified since the lint was triggered,
     don't draw marks. *)
  if match hit_time with
     | Some hit_time => bool_decide (default 0 (last_hit_times s !! vid) > hit_time)
     | None => false
     end
  then Ok s
  else
    let s := emit (Clear vid highlights) s in
    let s := emit (Draw vid highlights) s in
    let s := set_persist_errors (<[vid := errors]>) s in
    (* Update the status *)
    on_selection_modified_async view s.

(** [lint]: the call made by the queue for a pending request, and by
    [on_post_save] without a hit time. The callback is [highlight]. *)
Definition lint (view_id : Z) (hit_time : option Z) (s : State) : State :=
  match Linter_get_view view_id s with
  | None => s
  | Some view =>
    (* Build a list of regions that match the linter's selectors *)
    let sections :=
      foldl (λ (sections : gmap string (list (Z * Z * Z))) '(sel, _),
               <[sel := (λ region, ((view_rowcol view (region_a region)).1,
                                    region_a region, region_b region))
                          <$> view_find_by_selector view sel]> sections)
            ∅ (Linter_get_selectors view_id s) in
    let filename := view_file_name view in
    let code := view_text view in
    Linter_lint_view view_id filename code sections hit_time s
  end.

(** [is_settings_file]; a result of [None] counts as [False]. *)
Definition is_settings_file (view : View) (user_only : bool) (s : State) : bool :=
  match view_file_name view with
  | None => false
  | Some filename =>
    if decide (filename = "") then false
    else
      let '(dirname, filename) := os_path.split filename in
      let dirname := os_path.basename dirname in
      if LINTER_SETTINGS_RE.is_match filename then
        if user_only then bool_decide (dirname = "User")
        else bool_decide (dirname = PLUGIN_DIRECTORY s)
             || bool_decide (dirname = "User")
      else false
  end.

(** [on_open_settings]: called when any settings file is opened. *)
Definition on_open_settings (view : View) (s : State) : State :=
  if is_settings_file view true s then persist_update_user_settings view s
  else s.

(** [on_new]: called when a new buffer is created. *)
Definition on_new (view : View) (s : State) : State :=
  let s := on_open_settings view s in
  let vid := view_id view in
  let s := set_loaded_views (λ views, views ∪ {[vid]}) s in
  let s := set_view_syntax (<[vid := syntax view]>) s in
  Linter_assign view false s.

(** [on_load]. *)
Definition on_load (view : View) (s : State) : State := on_new view s.

(** [on_modified]. *)
Definition on_modified (view : View) (s : State) : State :=
  let continue (syntax_changed : bool) (s : State) :=
    if syntax_changed || bool_decide (lint_mode s = "background")
    then hit view s
    else clear view s in
  if decide (persist_linters s !! view_id view = None) then
    let '(syntax_changed, s) := check_syntax view s in
    if negb syntax_changed then s else continue syntax_changed s
  else continue false s.

(** [on_activated]: called when a view gains input focus. *)
Definition on_activated (view : View) (s : State) : result State :=
  (* Reload the plugin settings. *)
  let s := persist_load_settings s in
  let s := (check_syntax view s).2 in
  let view_id := view_id view in
  let s :=
    if decide (view_id ∉ linted_views s) then
      let s := if decide (view_id ∉ loaded_views s) then on_new view s else s in
      if bool_decide (lint_mode s = "background")
         || bool_decide (lint_mode s = "load/save")
      then hit view s else s
    else s in
  on_selection_modified_async view s.

(** [lint_all_views]: [hit] every view that has linters. *)
Definition lint_all_views (s : State) : State :=
  foldl (λ s view,
           if decide (is_Some (persist_linters s !! view_id view))
           then hit view s else s)
        s (map_to_list (persist_views s)).*2.

(** [on_close]. *)
Definition on_close (view : View) (s : State) : result State :=
  let vid := view_id view in
  s ← (if decide (vid ∈ loaded_views s) then
         views ← set_remove vid (loaded_views s);
         Ok (set_loaded_views (λ _, views) s)
       else Ok s);
  s ← (if decide (vid ∈ linted_views s) then
         views ← set_remove vid (linted_views s);
         Ok (set_linted_views (λ _, views) s)
       else Ok s);
  s ← (if decide (is_Some (view_syntax s !! vid)) then
         d ← dict_del vid (view_syntax s);
         Ok (set_view_syntax (λ _, d) s)
       else Ok s);
  s ← (if decide (is_Some (last_hit_times s !! vid)) then
         d ← dict_del vid (last_hit_times s);
         Ok (set_last_hit_times (λ _, d) s)
       else Ok s);
  Ok (persist_view_did_close vid s).

(** Modelled from the spec: [Linter.redraw_all] (lint/linter.py is missing)
    redraws what is stored for every buffer, "clear-then-draw, never
    draw-over-draw". *)
Definition Linter_redraw_all (s : State) : State :=
  foldl (λ s '(vid, highlights),
           emit (Draw vid highlights) (emit (Clear vid highlights) s))
        s (map_to_list (persist_highlights s)).

(** [on_settings_updated]: callback triggered when the settings are updated. *)
Definition on_settings_updated (relint : bool) (s : State) : State :=
  if relint then lint_all_views s else Linter_redraw_all s.

(** [on_pre_save]. *)
Definition on_pre_save (view : View) (s : State) : State :=
  if view_is_active view && is_settings_file view false s
  then persist_copy_settings s
  else s.

(** [on_post_save]. *)
Definition on_post_save (view : View) (s : State) : result State :=
  (* First check to see if the project settings changed *)
  if decide (view_project_file_name view = view_file_name view) then
    Ok (lint_all_views s)
  else
    file_name ← match view_file_name view with
                | Some name => Ok name
                | None => Raise AttributeError
                end;
    (* Now see if a .sublimelinterrc has changed *)
    if decide (os_path.basename file_name = ".sublimelinterrc") then
      (* If it's the main .sublimelinterrc, reload the settings *)
      let rc_path :=
        os_path.join (os_path.dirname (module_file s)) ".sublimelinterrc" in
      if decide (file_name = rc_path) then Ok (persist_load_settings s)
      else Ok (lint_all_views s)
    else
      let '(syntax_changed, s) := check_syntax view s in
      let vid := view_id view in
      let mode := lint_mode s in
      let show_errors := show_errors_on_save s in
      let '(show_errors, s) :=
        if syntax_changed then
          let s := clear view s in
          if decide (is_Some (persist_linters s !! vid)) then
            if decide (mode ≠ "manual") then (show_errors, lint vid None s)
            else (false, s)
          else (false, s)
        else
          if show_errors || bool_decide (mode = "load/save")
             || bool_decide (mode = "save only")
          then (show_errors, lint vid None s)
          else if decide (mode = "manual") then (false, s)
          else (show_errors, s) in
      if show_errors
      then Ok (emit (RunCommand vid "sublimelinter_show_all_errors") s)
      else Ok s.

(** ** The plugin in the editor *)

(** What can happen to the plugin: the editor calls a handler, the queue
    calls [lint] for a pending request, a lint in flight completes and calls
    [highlight] with the linters that ran, the settings watcher calls
    [on_settings_updated], and the environment changes the settings or the
    table of live views. *)
Inductive op :=
  | OnModified (view : View)
  | OnLoad (view : View)
  | OnActivated (view : View)
  | OnNew (view : View)
  | OnOpenSettings (view : View)
  | OnSelectionModifiedAsync (view : View)
  | OnPreSave (view : View)
  | OnPostSave (view : View)
  | OnClose (view : View)
  | OnSettingsUpdated (relint : bool)
  | LintAllViews
  | Hit (view : View)
  | QueueLint (view_id : Z) (hit_time : Z)
  | Completed (view : View) (linters : list Linter) (hit_time : option Z)
  | SettingsChanged (mode : string) (show : bool)
  | ViewsChanged (views : gmap Z View).

(** The state a call leaves when an exception ends it before any
    assignment: the one it started from. *)
Definition returned (r : result State) (s : State) : State :=
  match r with
  | Ok s' => s'
  | Raise _ => s
  end.

Definition run (o : op) (s : State) : State :=
  match o with
  | OnModified view => on_modified view s
  | OnLoad view => on_load view s
  | OnActivated view => returned (on_activated view s) s
  | OnNew view => on_new view s
  | OnOpenSettings view => on_open_settings view s
  | OnSelectionModifiedAsync view => returned (on_selection_modified_async view s) s
  | OnPreSave view => on_pre_save view s
  | OnPostSave view => returned (on_post_save view s) s
  | OnClose view => returned (on_close view s) s
  | OnSettingsUpdated relint => on_settings_updated relint s
  | LintAllViews => lint_all_views s
  | Hit view => hit view s
  | QueueLint view_id hit_time => lint view_id (Some hit_time) s
  | Completed view linters hit_time => returned (highlight view linters hit_time s) s
  | SettingsChanged mode show => set_settings mode show s
  | ViewsChanged views => set_persist_views (λ _, views) s
  end.

Definition run_all (ops : list op) (s : State) : State := foldl (λ s o, run o s) s ops.

(** States the plugin can be in. *)
Definition reachable (s : State) : Prop :=
  ∃ mode show langs file directory ops,
    s = run_all ops (init mode show langs file directory).

(** [self.last_hit_times.get(vid, 0)]. *)
Definition last_hit_time (vid : Z) (s : State) : Z :=
  default 0 (last_hit_times s !! vid).

(** ** What [highlight] collects from the linters *)

(** The highlight set built by the loop of [highlight]. *)
Definition collected_highlights (linters : list Linter) : HighlightSet :=
  omap linter_highlight linters.

(** The errors dict built by the loop of [highlight]. *)
Definition collected_errors (linters : list Linter) : errors_dict :=
  foldl collect_errors ∅ linters.


(** ** The status line in closed form *)

(** The line of the first selection, [-1] without one: the value of [lineno]
    in [on_selection_modified_async]. *)
Definition selection_line (view : View) : Z :=
  match view_sel view with
  | region :: _ => (view_rowcol view (begin region)).1
  | [] => -1
  end.

(** [lines] in [on_selection_modified_async]. *)
Definition sorted_lines (errors : errors_dict) : list Z :=
  sorted id (map_to_list errors).*1.

(** [counts]: every line of [lines] is a key of [errors]. *)
Definition line_counts (errors : errors_dict) : list Z :=
  (λ line, len (default [] (errors !! line))) <$> sorted_lines errors.

(** The value of [l.index(x)] when [x] is in [l]. *)
Fixpoint position (l : list Z) (x : Z) : nat :=
  match l with
  | [] => 0
  | y :: l' => if decide (y = x) then 0 else S (position l' x)
  end.

(** The text [on_selection_modified_async] sets for a non-empty [errors]. *)
Definition status_text (errors : errors_dict) (lineno : Z) : string :=
  let count := sum (line_counts errors) in
  match errors !! lineno with
  | Some errs =>
    let line_errors := snd <$> sorted fst errs in
    ((if decide (count > 1) then
        let first := sum (take (position (sorted_lines errors) lineno)
                               (line_counts errors)) + 1 in
        if decide (len line_errors > 1) then
          pretty first ++ "-" ++ pretty (first + len line_errors - 1) ++ " of "
            ++ pretty count ++ " errors: "
        else pretty first ++ " of " ++ pretty count ++ " errors: "
      else "Error: ") ++ join "; " line_errors)%string
  | None => (pretty count ++ " error" ++ if decide (count > 1) then "s" else "")%string
  end.

(** ** Timestamps *)

(** Every timestamp kept in [last_hit_times] was minted by the queue. *)
Definition minted (s : State) : Prop :=
  0 ≤ queue_clock s
  ∧ ∀ vid t, last_hit_times s !! vid = Some t → t ≤ queue_clock s.

(** From [s] to [s'] the clock of the queue does not go back, and when the
    timestamps of [s] were minted so are those of [s'] and none is older. *)
Definition advances (s s' : State) : Prop :=
  queue_clock s ≤ queue_clock s'
  ∧ (minted s →
     minted s' ∧ ∀ vid, last_hit_time vid s ≤ last_hit_time vid s').

(** ** Example objects *)

(** A Python view with ten characters, its cursor at the start of [row]. *)
Definition example_view (row : Z) : View :=
  {| view_id := 1; view_size := 10;
     view_sel := [{| region_a := row; region_b := row |}];
     view_rowcol := λ point, (point, 0);
     view_file_name := Some "/home/user/project/main.py";
     view_project_file_name := None;
     view_is_active := true;
     view_find_by_selector := λ _, [];
     view_text := "import os";
     syntax := "Python" |}.

(** The same view once all its text is deleted. *)
Definition emptied_view : View :=
  {| view_id := 1; view_size := 0;
     view_sel := [{| region_a := 0; region_b := 0 |}];
     view_rowcol := λ point, (point, 0);
     view_file_name := Some "/home/user/project/main.py";
     view_project_file_name := None;
     view_is_active := true;
     view_find_by_selector := λ _, [];
     view_text := "";
     syntax := "Python" |}.

(** The same view with no selection. *)
Definition unselected_view : View :=
  {| view_id := 1; view_size := 10;
     view_sel := [];
     view_rowcol := λ point, (point, 0);
     view_file_name := Some "/home/user/project/main.py";
     view_project_file_name := None;
     view_is_active := true;
     view_find_by_selector := λ _, [];
     view_text := "import os";
     syntax := "Python" |}.

(** Two linters that each report one error at line 1, column 3. *)
Definition linter_a : Linter :=
  {| linter_name := "a"; linter_selectors := [];
     linter_highlight := Some [{| hl_line := 1; hl_start := 3; hl_end := 4 |}];
     linter_errors := {[ 1 := [(3, "a")] ]} |}.

Definition linter_b : Linter :=
  {| linter_name := "b"; linter_selectors := [];
     linter_highlight := Some [{| hl_line := 1; hl_start := 3; hl_end := 5 |}];
     linter_errors := {[ 1 := [(3, "b")] ]} |}.

(** A linter that reports one error at line 1, column 5. *)
Definition linter_c : Linter :=
  {| linter_name := "c"; linter_selectors := [];
     linter_highlight := None;
     linter_errors := {[ 1 := [(5, "c")] ]} |}.

(** A new plugin instance in background mode, with both linters for Python. *)
Definition example_init : State :=
  init "background" false
    (λ syntax, if decide (syntax = "Python") then [linter_a; linter_b] else [])
    "/packages/SublimeLinter/sublimelinter.py" "SublimeLinter".

(** ** States of the examples *)

(** The call [on_selection_modified_async] makes on the view when errors
    are stored for it. *)
Definition status_event (vid : Z) (errors : errors_dict) (lineno : Z) : ui_event :=
  if decide (errors ≠ ∅) then SetStatus vid (status_text errors lineno)
  else EraseStatus vid.

(** The view is hit, its lint completes with the result of [linter_a], and
    the view is hit again. *)
Definition hit_twice : State :=
  run_all [Hit (example_view 0);
           Completed (example_view 0) [linter_a] (Some 1);
           Hit (example_view 0)] example_init.


(** The view is known to the editor and saved for the first time. *)
Definition before_save : State :=
  run (ViewsChanged {[ 1 := example_view 0 ]}) example_init.

(** The number of errors of all lines of an errors dict. *)
Definition error_count (errors : errors_dict) : Z :=
  map_fold (λ _ errs count, len errs + count) 0 errors.

(** The errors dict of the status examples: one error at line 2, two at
    line 5, at the given columns. *)
Definition example_errors (c0 c1 c2 : Z) : errors_dict :=
  {[ 2 := [(c0, "bad indent")];
     5 := [(c1, "unused var"); (c2, "missing semicolon")] ]}.

(** ** Further notions for the properties *)

(** The number of errors on the lines of the dict before [lineno]. *)
Definition errors_before (errors : errors_dict) (lineno : Z) : Z :=
  error_count (filter (λ entry, entry.1 < lineno) errors).

(** What is kept for a view id in the sets and maps keyed by view ids. *)
Definition entries (k : Z) (s : State) :=
  (bool_decide (k ∈ loaded_views s), bool_decide (k ∈ linted_views s),
   view_syntax s !! k, last_hit_times s !! k,
   persist_errors s !! k, persist_highlights s !! k, persist_linters s !! k,
   queue_pending s !! k).

(** The view ids an operation can be about: the id of its view for a call
    with one view, every id for the calls that go through all views, none
    for the others. *)
Definition concerns (o : op) (k : Z) : Prop :=
  match o with
  | OnModified view | OnLoad view | OnActivated view | OnNew view
  | OnOpenSettings view | OnSelectionModifiedAsync view | OnPreSave view
  | OnClose view | Hit view | Completed view _ _ => k = view_id view
  | OnPostSave _ | LintAllViews | OnSettingsUpdated true => True
  | OnSettingsUpdated false | QueueLint _ _ | SettingsChanged _ _
  | ViewsChanged _ => False
  end.

(** The maps of the plugin instance agree: a view that was loaded or linted
    has a recorded syntax, and a view with a last hit time was linted. *)
Definition tracked (s : State) : Prop :=
  ∀ vid,
    (vid ∈ loaded_views s ∨ vid ∈ linted_views s → is_Some (view_syntax s !! vid))
    ∧ (is_Some (last_hit_times s !! vid) → vid ∈ linted_views s).




(** * Properties *)

(** Only the fields and setters of [State] are unfolded: decisions on sets
    and maps stay as they are. *)
Ltac state_simpl :=
  cbn [loaded_views linted_views view_syntax last_hit_times persist_errors
       persist_highlights persist_linters persist_views lint_mode
       show_errors_on_save queue_clock queue_pending languages module_file
       PLUGIN_DIRECTORY in_flight ui
       set_loaded_views set_linted_views set_view_syntax set_last_hit_times
       set_persist_errors set_persist_highlights set_persist_linters
       set_persist_views set_settings set_queue set_in_flight emit
       fst snd] in *.

(** ** Exceptions and the status handler *)

Lemma bind_Ok {A B} (x : A) (k : A → result B) : Ok x ≫= k = k x.
Proof. reflexivity. Qed.

Lemma mapM_Ok {A B} (f : A → result B) (g : A → B) (l : list A) :
  (∀ x, x ∈ l → f x = Ok (g x)) → mapM f l = Ok (g <$> l).
Proof.
  induction l as [|x l IH]; intros Hf; [done|]. cbn.
  rewrite (Hf x) by left. rewrite bind_Ok, IH; [done|].
  intros y Hy. apply Hf. by right.
Qed.

Lemma insert_by_Permutation {A} (key : A → Z) (x : A) (l : list A) :
  insert_by key x l ≡ₚ x :: l.
Proof.
  induction l as [|y l IH]; cbn; [done|].
  destruct (key x <=? key y); [done|]. rewrite IH. apply Permutation_swap.
Qed.

Lemma sorted_Permutation {A} (key : A → Z) (l : list A) : sorted key l ≡ₚ l.
Proof.
  induction l as [|x l IH]; cbn; [done|].
  fold (sorted key l). by rewrite insert_by_Permutation, IH.
Qed.

Lemma elem_of_sorted_lines (errors : errors_dict) (line : Z) :
  line ∈ sorted_lines errors ↔ is_Some (errors !! line).
Proof.
  unfold sorted_lines. rewrite sorted_Permutation, list_elem_of_fmap. split.
  - intros [[line' errs] [-> Hin]]. apply elem_of_map_to_list in Hin. by exists errs.
  - intros [errs Hin]. exists (line, errs). split; [done|].
    by apply elem_of_map_to_list.
Qed.

Lemma list_index_Ok (l : list Z) (x : Z) : x ∈ l → list_index l x = Ok (position l x).
Proof.
  induction l as [|y l IH]; intros Hx; [by apply elem_of_nil in Hx|]. cbn.
  destruct (decide (y = x)); [done|].
  rewrite IH; [done|]. apply elem_of_cons in Hx as [?|?]; [congruence|done].
Qed.

Lemma counts_Ok (errors : errors_dict) :
  mapM (λ line, errs ← subscript errors line; Ok (len errs)) (sorted_lines errors)
  = Ok (line_counts errors).
Proof.
  apply mapM_Ok. intros line [errs Hline]%elem_of_sorted_lines.
  unfold subscript. by rewrite Hline.
Qed.

Lemma selection_line_Ok (view : View) :
  try_except (region ← getitem (view_sel view) 0;
              Ok (view_rowcol view (begin region)).1) IndexError (Ok (-1))
  = Ok (selection_line view).
Proof. unfold selection_line, getitem. by destruct (view_sel view). Qed.

(** [on_selection_modified_async] never raises, and what it does to the
    status of the view. *)
Lemma on_selection_modified_async_Ok (view : View) (s : State) :
  on_selection_modified_async view s =
  Ok match persist_errors s !! view_id view with
     | Some errors =>
       if decide (errors ≠ ∅)
       then emit (SetStatus (view_id view) (status_text errors (selection_line view))) s
       else emit (EraseStatus (view_id view)) s
     | None => s
     end.
Proof.
  unfold on_selection_modified_async.
  rewrite selection_line_Ok, bind_Ok.
  destruct (persist_errors s !! view_id view) as [errors|]; [|done].
  destruct (decide (errors ≠ ∅)) as [Hne|]; [|done].
  fold (sorted_lines errors). rewrite counts_Ok, bind_Ok.
  unfold status_text.
  destruct (decide (is_Some (errors !! selection_line view))) as [[errs Herrs]|Hnone].
  - rewrite Herrs. unfold subscript at 1. rewrite Herrs, bind_Ok.
    destruct (decide (sum (line_counts errors) > 1)) as [Hc|Hc].
    + rewrite decide_True by done.
      rewrite list_index_Ok by (apply elem_of_sorted_lines; eauto).
      rewrite bind_Ok. by destruct (decide (len _ > 1)).
    + by rewrite decide_False by (by intros []).
  - apply eq_None_not_Some in Hnone. by rewrite Hnone.
Qed.
(** ** [on_close] *)

Lemma set_remove_elem (x : Z) (s : gset Z) : x ∈ s → set_remove x s = Ok (s ∖ {[x]}).
Proof. intros Hx. unfold set_remove. by rewrite decide_True. Qed.

Lemma dict_del_is_Some {A} (k : Z) (d : gmap Z A) :
  is_Some (d !! k) → dict_del k d = Ok (delete k d).
Proof. intros [x Hx]. unfold dict_del. by rewrite Hx. Qed.

Lemma difference_absent (x : Z) (s : gset Z) : x ∉ s → s ∖ {[x]} = s.
Proof. intros Hx. apply difference_disjoint_L. by apply disjoint_singleton_r. Qed.

Lemma delete_absent {A} (k : Z) (d : gmap Z A) : ¬ is_Some (d !! k) → delete k d = d.
Proof. intros Hk. apply delete_id. by apply eq_None_not_Some. Qed.

(** Each guarded removal of [on_close] succeeds, present or absent. *)
Lemma guarded_remove_loaded (vid : Z) (s : State) :
  (if decide (vid ∈ loaded_views s) then
     views ← set_remove vid (loaded_views s);
     Ok (set_loaded_views (λ _, views) s)
   else Ok s)
  = Ok (set_loaded_views (λ views, views ∖ {[vid]}) s).
Proof.
  destruct (decide (vid ∈ loaded_views s)) as [Hin|Hout].
  - by rewrite (set_remove_elem _ _ Hin), bind_Ok.
  - destruct s. unfold set_loaded_views. state_simpl.
    by rewrite (difference_absent _ _ Hout).
Qed.

Lemma guarded_remove_linted (vid : Z) (s : State) :
  (if decide (vid ∈ linted_views s) then
     views ← set_remove vid (linted_views s);
     Ok (set_linted_views (λ _, views) s)
   else Ok s)
  = Ok (set_linted_views (λ views, views ∖ {[vid]}) s).
Proof.
  destruct (decide (vid ∈ linted_views s)) as [Hin|Hout].
  - by rewrite (set_remove_elem _ _ Hin), bind_Ok.
  - destruct s. unfold set_linted_views. state_simpl.
    by rewrite (difference_absent _ _ Hout).
Qed.

Lemma guarded_del_view_syntax (vid : Z) (s : State) :
  (if decide (is_Some (view_syntax s !! vid)) then
     d ← dict_del vid (view_syntax s);
     Ok (set_view_syntax (λ _, d) s)
   else Ok s)
  = Ok (set_view_syntax (delete vid) s).
Proof.
  destruct (decide (is_Some (view_syntax s !! vid))) as [Hin|Hout].
  - by rewrite (dict_del_is_Some _ _ Hin), bind_Ok.
  - destruct s. unfold set_view_syntax. state_simpl.
    by rewrite (delete_absent _ _ Hout).
Qed.

Lemma guarded_del_last_hit_times (vid : Z) (s : State) :
  (if decide (is_Some (last_hit_times s !! vid)) then
     d ← dict_del vid (last_hit_times s);
     Ok (set_last_hit_times (λ _, d) s)
   else Ok s)
  = Ok (set_last_hit_times (delete vid) s).
Proof.
  destruct (decide (is_Some (last_hit_times s !! vid))) as [Hin|Hout].
  - by rewrite (dict_del_is_Some _ _ Hin), bind_Ok.
  - destruct s. unfold set_last_hit_times. state_simpl.
    by rewrite (delete_absent _ _ Hout).
Qed.

(** The guards of [on_close] make each removal succeed: the handler is the
    four deletions followed by [persist.view_did_close]. *)
Lemma on_close_Ok (view : View) (s : State) :
  on_close view s =
  Ok (persist_view_did_close (view_id view)
        (set_last_hit_times (delete (view_id view))
           (set_view_syntax (delete (view_id view))
              (set_linted_views (λ views, views ∖ {[view_id view]})
                 (set_loaded_views (λ views, views ∖ {[view_id view]}) s))))).
Proof.
  unfold on_close.
  rewrite guarded_remove_loaded, bind_Ok.
  rewrite guarded_remove_linted, bind_Ok.
  rewrite guarded_del_view_syntax, bind_Ok.
  by rewrite guarded_del_last_hit_times, bind_Ok.
Qed.

(** C9: [on_close] returns without raising for every view and state, also
    when some or all of the entries of the view are absent; afterwards the
    view id is in none of [loaded_views], [linted_views], [view_syntax] and
    [last_hit_times], and the entries of the other views are as before. *)
Theorem on_close_purges (view : View) (s : State) :
  ∃ s', on_close view s = Ok s'
    ∧ (view_id view ∉ loaded_views s')
    ∧ (view_id view ∉ linted_views s')
    ∧ view_syntax s' !! view_id view = None
    ∧ last_hit_times s' !! view_id view = None
    ∧ ∀ vid, vid ≠ view_id view →
        (vid ∈ loaded_views s' ↔ vid ∈ loaded_views s)
        ∧ (vid ∈ linted_views s' ↔ vid ∈ linted_views s)
        ∧ view_syntax s' !! vid = view_syntax s !! vid
        ∧ last_hit_times s' !! vid = last_hit_times s !! vid.
Proof.
  eexists. split; [apply on_close_Ok|].
  unfold persist_view_did_close. state_simpl.
  rewrite !elem_of_difference, !elem_of_singleton, !lookup_delete_eq.
  repeat split; try tauto.
  all: try (rewrite elem_of_difference, elem_of_singleton; tauto).
  all: by rewrite lookup_delete_ne.
Qed.

Lemma on_close_purges_witness :
  ∃ s', on_close (example_view 0) (hit (example_view 0) example_init) = Ok s'
    ∧ (1 ∉ linted_views s')
    ∧ last_hit_times s' !! 1 = None.
Proof.
  destruct (on_close_purges (example_view 0) (hit (example_view 0) example_init))
    as (s' & Hs' & _ & Hlinted & _ & Htime & _).
  exists s'. split; [exact Hs'|]. split; [exact Hlinted|exact Htime].
Defined.

(** ** [check_syntax] *)

(** The test of [check_syntax]: the syntax has never been set or differs. *)
Lemma syntax_test (view : View) (s : State) :
  match view_syntax s !! view_id view with
  | None => true
  | Some recorded => bool_decide (recorded ≠ syntax view)
  end = bool_decide (view_syntax s !! view_id view ≠ Some (syntax view)).
Proof.
  destruct (view_syntax s !! view_id view) as [recorded|]; [|done].
  apply bool_decide_ext. split; [congruence|]. intros Hne ->. by apply Hne.
Qed.

Lemma check_syntax_changed (view : View) (s : State) :
  view_syntax s !! view_id view ≠ Some (syntax view) →
  check_syntax view s =
  (true, clear view (Linter_assign view true
                       (set_view_syntax (<[view_id view := syntax view]>) s))).
Proof.
  intros Hne. unfold check_syntax.
  by rewrite syntax_test, bool_decide_eq_true_2.
Qed.

Lemma check_syntax_same (view : View) (s : State) :
  view_syntax s !! view_id view = Some (syntax view) →
  check_syntax view s = (false, s).
Proof.
  intros Heq. unfold check_syntax.
  rewrite syntax_test, bool_decide_eq_false_2; [done|]. by intros [].
Qed.

(** The linters [Linter_assign] leaves bound to the view. *)
Lemma Linter_assign_linters (view : View) (reassign : bool) (s : State) :
  persist_linters (Linter_assign view reassign s) !! view_id view =
  match languages s (syntax view) with
  | [] => None
  | linters => Some linters
  end.
Proof.
  unfold Linter_assign.
  destruct (languages s (syntax view)); state_simpl.
  - apply lookup_delete_eq.
  - apply lookup_insert_eq.
Qed.

Lemma Linter_assign_frame (view : View) (reassign : bool) (s : State) :
  let s' := Linter_assign view reassign s in
  loaded_views s' = loaded_views s ∧ linted_views s' = linted_views s
  ∧ view_syntax s' = view_syntax s ∧ last_hit_times s' = last_hit_times s
  ∧ persist_errors s' = persist_errors s
  ∧ persist_highlights s' = persist_highlights s
  ∧ queue_clock s' = queue_clock s ∧ queue_pending s' = queue_pending s
  ∧ in_flight s' = in_flight s ∧ ui s' = ui s ∧ languages s' = languages s.
Proof. unfold Linter_assign. by destruct (languages s (syntax view)). Qed.

Lemma check_syntax_frame (view : View) (s : State) :
  let s' := (check_syntax view s).2 in
  queue_clock s' = queue_clock s ∧ queue_pending s' = queue_pending s
  ∧ in_flight s' = in_flight s ∧ last_hit_times s' = last_hit_times s
  ∧ linted_views s' = linted_views s ∧ loaded_views s' = loaded_views s.
Proof.
  destruct (decide (view_syntax s !! view_id view = Some (syntax view))) as [Heq|Hne].
  - by rewrite (check_syntax_same _ _ Heq).
  - rewrite (check_syntax_changed _ _ Hne). cbn [snd].
    unfold clear, Linter_clear_view. state_simpl.
    by destruct (Linter_assign_frame view true
                   (set_view_syntax (<[view_id view := syntax view]>) s))
      as (-> & -> & _ & -> & _ & _ & -> & -> & -> & _).
Qed.

(** C5: [check_syntax] returns [True] exactly when no syntax is recorded
    for the view or the recorded one differs from the syntax of the view.
    When it returns [True], on return the syntax is recorded, the linters of
    the new syntax are bound to the view, the errors and highlights stored
    for the view are gone and its rendering has been cleared, with no lint
    requested or completed in between; when it returns [False] the state is
    untouched. *)
Theorem check_syntax_spec (view : View) (s : State) :
  let vid := view_id view in
  let changed := (check_syntax view s).1 in
  let s' := (check_syntax view s).2 in
  (changed = true ↔ view_syntax s !! vid ≠ Some (syntax view))
  ∧ (changed = true →
       view_syntax s' !! vid = Some (syntax view)
       ∧ persist_linters s' !! vid =
           match languages s (syntax view) with
           | [] => None
           | linters => Some linters
           end
       ∧ persist_errors s' !! vid = None
       ∧ persist_highlights s' !! vid = None
       ∧ ui s' = ui s ++ [ClearRendering vid]
       ∧ in_flight s' = in_flight s
       ∧ queue_pending s' = queue_pending s
       ∧ last_hit_times s' = last_hit_times s)
  ∧ (changed = false → s' = s).
Proof.
  intros vid changed s'. subst vid changed s'.
  destruct (decide (view_syntax s !! view_id view = Some (syntax view))) as [Heq|Hne].
  - rewrite (check_syntax_same _ _ Heq). cbn [fst snd].
    split; [split; [done|congruence]|]. split; [done|done].
  - rewrite (check_syntax_changed _ _ Hne). cbn [fst snd].
    split; [done|]. split; [|done]. intros _.
    unfold clear, Linter_clear_view. state_simpl.
    pose proof (Linter_assign_frame view true
                  (set_view_syntax (<[view_id view := syntax view]>) s)) as Hframe.
    cbn zeta in Hframe. destruct Hframe as (_ & _ & -> & -> & -> & -> & _ & -> & -> & -> & _).
    rewrite Linter_assign_linters. state_simpl.
    by rewrite lookup_insert_eq, !lookup_delete_eq.
Qed.

Lemma check_syntax_spec_witness :
  (check_syntax (example_view 0) example_init).1 = true
  ∧ view_syntax (check_syntax (example_view 0) example_init).2 !! 1 = Some "Python"
  ∧ persist_errors (check_syntax (example_view 0) example_init).2 !! 1 = None
  ∧ persist_linters (check_syntax (example_view 0) example_init).2 !! 1
    = Some [linter_a; linter_b].
Proof.
  destruct (check_syntax_spec (example_view 0) example_init)
    as (Hiff & Hchanged & _).
  assert ((check_syntax (example_view 0) example_init).1 = true) as Htrue.
  { apply Hiff. by vm_compute. }
  destruct (Hchanged Htrue) as (Hsyntax & Hlinters & Herrors & _).
  split; [exact Htrue|]. split; [exact Hsyntax|]. split; [exact Herrors|].
  etrans; [exact Hlinters|]. by vm_compute.
Defined.

(** ** [highlight] in closed form *)

Lemma set_persist_highlights_ext (f g : gmap Z HighlightSet → gmap Z HighlightSet)
  (s : State) :
  f (persist_highlights s) = g (persist_highlights s) →
  set_persist_highlights f s = set_persist_highlights g s.
Proof. intros Hfg. unfold set_persist_highlights. by rewrite Hfg. Qed.

Lemma set_persist_highlights_id (f : gmap Z HighlightSet → gmap Z HighlightSet)
  (s : State) :
  f (persist_highlights s) = persist_highlights s →
  set_persist_highlights f s = s.
Proof. intros Hf. destruct s. unfold set_persist_highlights. state_simpl. by rewrite Hf. Qed.

Lemma collected_highlights_cons (linter : Linter) (linters : list Linter) :
  collected_highlights (linter :: linters) =
  match linter_highlight linter with
  | Some h => h :: collected_highlights linters
  | None => collected_highlights linters
  end.
Proof. reflexivity. Qed.

(** The loop of [highlight] adds the highlights of the linters to the set
    stored for the view, and folds their errors into [errors]. *)
Lemma highlight_loop (vid : Z) (linters : list Linter) (s : State)
  (hs : HighlightSet) (errors : errors_dict) :
  persist_highlights s !! vid = Some hs →
  foldl (highlight_linter vid) (s, errors) linters =
  (set_persist_highlights (<[vid := hs ++ collected_highlights linters]>) s,
   foldl collect_errors errors linters).
Proof.
  revert s hs errors.
  induction linters as [|linter linters IH]; intros s hs errors Hhs.
  - cbn [foldl]. f_equal. symmetry. apply set_persist_highlights_id.
    rewrite app_nil_r. by apply insert_id.
  - cbn [foldl]. unfold highlight_linter at 2.
    rewrite collected_highlights_cons.
    destruct (linter_highlight linter) as [h|].
    + erewrite IH; last first.
      { state_simpl. rewrite lookup_alter_eq, Hhs. reflexivity. }
      f_equal. unfold HighlightSet_add. rewrite <-app_assoc. cbn [app].
      unfold set_persist_highlights. state_simpl. by rewrite insert_alter_eq.
    + by erewrite IH.
Qed.

(** [highlight] stores the collected highlights for the view first; then a
    stale result returns, any other is drawn, stored and summarised. *)
Lemma highlight_unfold (view : View) (linters : list Linter)
  (hit_time : option Z) (s : State) :
  let vid := view_id view in
  let highlights := collected_highlights linters in
  let s1 := set_persist_highlights (<[vid := highlights]>) s in
  highlight view linters hit_time s =
  if match hit_time with
     | Some hit_time => bool_decide (last_hit_time vid s > hit_time)
     | None => false
     end
  then Ok s1
  else on_selection_modified_async view
         (set_persist_errors (<[vid := collected_errors linters]>)
            (emit (Draw vid highlights) (emit (Clear vid highlights) s1))).
Proof.
  intros vid highlights s1. unfold highlight. fold vid.
  rewrite (highlight_loop vid linters _ []) by (state_simpl; apply lookup_insert_eq).
  fold (collected_errors linters). cbn [app]. fold highlights.
  assert (set_persist_highlights (<[vid := highlights]>)
            (set_persist_highlights (<[vid := []]>) s) = s1) as ->.
  { unfold s1, set_persist_highlights. state_simpl. by rewrite insert_insert_eq. }
  assert (persist_highlights s1 !! vid = Some highlights) as ->
    by (unfold s1; state_simpl; apply lookup_insert_eq).
  cbn [from_option id]. reflexivity.
Qed.

(** ** Timestamps: the clock of the queue and [last_hit_times] *)

Lemma advances_refl (s : State) : advances s s.
Proof. split; [lia|]. intros Hm. split; [done|]. intros vid. lia. Qed.

Lemma advances_trans (s1 s2 s3 : State) :
  advances s1 s2 → advances s2 s3 → advances s1 s3.
Proof.
  intros [Hc12 H12] [Hc23 H23]. split; [lia|]. intros Hm1.
  destruct (H12 Hm1) as [Hm2 Ht12]. destruct (H23 Hm2) as [Hm3 Ht23].
  split; [done|]. intros vid. specialize (Ht12 vid). specialize (Ht23 vid). lia.
Qed.

(** A call that touches neither the clock nor the timestamps. *)
Lemma advances_same (s s' : State) :
  queue_clock s' = queue_clock s → last_hit_times s' = last_hit_times s →
  advances s s'.
Proof.
  intros Hc Ht. split; [lia|]. unfold minted, last_hit_time.
  rewrite Hc, Ht. intros Hm. split; [done|]. intros vid. lia.
Qed.

Lemma advances_foldl {A} (f : State → A → State) (l : list A) (s : State) :
  (∀ s x, advances s (f s x)) → advances s (foldl f s l).
Proof.
  intros Hf. revert s. induction l as [|x l IH]; intros s; cbn [foldl].
  - apply advances_refl.
  - eapply advances_trans; [apply Hf|apply IH].
Qed.

Lemma advances_returned (r : result State) (s : State) :
  (∀ s', r = Ok s' → advances s s') → advances s (returned r s).
Proof. destruct r as [s'|e]; cbn; [auto|]. intros _. apply advances_refl. Qed.

Lemma clear_advances (view : View) (s : State) : advances s (clear view s).
Proof. by apply advances_same. Qed.

Lemma Linter_assign_advances (view : View) (reassign : bool) (s : State) :
  advances s (Linter_assign view reassign s).
Proof.
  destruct (Linter_assign_frame view reassign s)
    as (_ & _ & _ & Ht & _ & _ & Hc & _).
  by apply advances_same.
Qed.

Lemma check_syntax_advances (view : View) (s : State) :
  advances s (check_syntax view s).2.
Proof.
  destruct (decide (view_syntax s !! view_id view = Some (syntax view))) as [Heq|Hne].
  - rewrite (check_syntax_same _ _ Heq). apply advances_refl.
  - rewrite (check_syntax_changed _ _ Hne). cbn [snd].
    eapply advances_trans; [|apply clear_advances].
    eapply advances_trans; [|apply Linter_assign_advances].
    by apply advances_same.
Qed.

(** The clock and the timestamps after [hit] on a view with content. *)
Lemma hit_size_nonzero (view : View) (s : State) :
  view_size view ≠ 0 →
  queue_clock (hit view s) = queue_clock (check_syntax view s).2 + 1
  ∧ last_hit_times (hit view s) =
      <[view_id view := queue_clock (check_syntax view s).2 + 1]>
        (last_hit_times (check_syntax view s).2).
Proof.
  intros Hsize. unfold hit. rewrite decide_False by done.
  unfold queue_hit. by state_simpl.
Qed.

(** [hit] on an empty view: the linters of the view are cleared, nothing
    else changes after [check_syntax] and the addition to [linted_views]. *)
Lemma hit_size_zero (view : View) (s : State) :
  view_size view = 0 →
  hit view s =
  set_persist_linters (alter (fmap linter_clear) (view_id view))
    (set_linted_views (λ views, views ∪ {[view_id view]}) (check_syntax view s).2).
Proof. intros Hsize. unfold hit. by rewrite decide_True. Qed.

Lemma hit_advances (view : View) (s : State) : advances s (hit view s).
Proof.
  eapply advances_trans; [apply (check_syntax_advances view)|].
  destruct (decide (view_size view = 0)) as [Hsize|Hsize].
  - rewrite (hit_size_zero _ _ Hsize). by apply advances_same.
  - destruct (hit_size_nonzero view s Hsize) as [Hc Ht].
    set (s1 := (check_syntax view s).2) in *.
    split; [lia|]. intros [Hpos Hm]. split.
    + split; [lia|]. intros vid t. rewrite Ht, Hc.
      destruct (decide (vid = view_id view)) as [->|Hne].
      * rewrite lookup_insert_eq. intros [= <-]. lia.
      * rewrite lookup_insert_ne by done. intros Hv%Hm. lia.
    + intros vid. unfold last_hit_time. rewrite Ht.
      destruct (decide (vid = view_id view)) as [->|Hne].
      * rewrite lookup_insert_eq. cbn [from_option id].
        destruct (last_hit_times s1 !! view_id view) as [t|] eqn:Hv; cbn [from_option id].
        -- apply Hm in Hv. lia.
        -- lia.
      * rewrite lookup_insert_ne by done. lia.
Qed.

Lemma on_selection_modified_async_advances (view : View) (s s' : State) :
  on_selection_modified_async view s = Ok s' → advances s s'.
Proof.
  rewrite on_selection_modified_async_Ok. intros [= <-].
  destruct (persist_errors s !! view_id view) as [errors|];
    [|apply advances_refl].
  destruct (decide (errors ≠ ∅)); by apply advances_same.
Qed.

Lemma highlight_advances (view : View) (linters : list Linter)
  (hit_time : option Z) (s s' : State) :
  highlight view linters hit_time s = Ok s' → advances s s'.
Proof.
  rewrite highlight_unfold.
  destruct (match hit_time with Some _ => _ | None => _ end).
  - intros [= <-]. by apply advances_same.
  - intros Hs'%on_selection_modified_async_advances.
    eapply advances_trans; [|apply Hs']. by apply advances_same.
Qed.

Lemma lint_advances (view_id : Z) (hit_time : option Z) (s : State) :
  advances s (lint view_id hit_time s).
Proof.
  unfold lint. destruct (Linter_get_view view_id s); [|apply advances_refl].
  by apply advances_same.
Qed.

Lemma on_open_settings_advances (view : View) (s : State) :
  advances s (on_open_settings view s).
Proof.
  unfold on_open_settings, persist_update_user_settings.
  destruct (is_settings_file view true s); apply advances_refl.
Qed.

Lemma on_new_advances (view : View) (s : State) : advances s (on_new view s).
Proof.
  unfold on_new.
  eapply advances_trans; [apply (on_open_settings_advances view)|].
  eapply advances_trans; [|apply Linter_assign_advances].
  by apply advances_same.
Qed.

Lemma on_modified_advances (view : View) (s : State) :
  advances s (on_modified view s).
Proof.
  unfold on_modified.
  destruct (decide (persist_linters s !! view_id view = None)).
  - pose proof (check_syntax_advances view s) as Hcs.
    destruct (check_syntax view s) as [changed s1]. cbn [snd] in Hcs.
    destruct changed; cbn [negb orb]; [|done].
    eapply advances_trans; [apply Hcs|apply hit_advances].
  - cbn [orb]. destruct (bool_decide (lint_mode s = "background"));
      [apply hit_advances|apply clear_advances].
Qed.

Lemma on_activated_advances (view : View) (s s' : State) :
  on_activated view s = Ok s' → advances s s'.
Proof.
  unfold on_activated, persist_load_settings.
  intros Hs'%on_selection_modified_async_advances.
  eapply advances_trans; [|apply Hs']. clear Hs'.
  eapply advances_trans; [apply (check_syntax_advances view)|].
  set (s1 := (check_syntax view s).2).
  destruct (decide (view_id view ∉ linted_views s1)); [|apply advances_refl].
  destruct (decide (view_id view ∉ loaded_views s1)).
  - eapply advances_trans; [apply (on_new_advances view)|].
    destruct (_ || _); [apply hit_advances|apply advances_refl].
  - destruct (_ || _); [apply hit_advances|apply advances_refl].
Qed.

Lemma lint_all_views_advances (s : State) : advances s (lint_all_views s).
Proof.
  unfold lint_all_views. apply advances_foldl. intros s1 view.
  destruct (decide (is_Some (persist_linters s1 !! view_id view)));
    [apply hit_advances|apply advances_refl].
Qed.

Lemma Linter_redraw_all_advances (s : State) : advances s (Linter_redraw_all s).
Proof.
  unfold Linter_redraw_all. apply advances_foldl. intros s1 [vid highlights].
  by apply advances_same.
Qed.

Lemma on_post_save_advances (view : View) (s s' : State) :
  on_post_save view s = Ok s' → advances s s'.
Proof.
  unfold on_post_save, persist_load_settings.
  destruct (decide (view_project_file_name view = view_file_name view)).
  { intros [= <-]. apply lint_all_views_advances. }
  destruct (view_file_name view) as [file_name|]; [|done]. rewrite bind_Ok.
  destruct (decide (os_path.basename file_name = ".sublimelinterrc")).
  { destruct (decide (file_name = _)); intros [= <-];
      [apply advances_refl|apply lint_all_views_advances]. }
  pose proof (check_syntax_advances view s) as Hcs.
  destruct (check_syntax view s) as [changed s1]. cbn [snd] in Hcs.
  assert (∀ (show_errors : bool) (s2 : State), advances s s2 →
            (if show_errors
             then Ok (emit (RunCommand (view_id view) "sublimelinter_show_all_errors") s2)
             else Ok s2) = Ok s' → advances s s') as Hshow.
  { intros show_errors s2 Hs2.
    destruct show_errors; intros [= <-]; [|done].
    eapply advances_trans; [apply Hs2|]. by apply advances_same. }
  assert (advances s (clear view s1)) as Hclear
    by (eapply advances_trans; [apply Hcs|apply clear_advances]).
  assert (∀ s2, advances s s2 → advances s (lint (view_id view) None s2)) as Hlint
    by (intros s2 Hs2; eapply advances_trans; [apply Hs2|apply lint_advances]).
  destruct changed.
  - destruct (decide (is_Some (persist_linters (clear view s1) !! view_id view)));
      [destruct (decide (lint_mode s1 ≠ "manual"))|];
      first [apply Hshow; by auto | intros [= <-]; by auto].
  - destruct (_ || _); [|destruct (decide (lint_mode s1 = "manual"))];
      first [apply Hshow; by auto | intros [= <-]; by auto].
Qed.

(** Every operation but the close of a view advances the state. *)
Lemma run_advances (o : op) (s : State) :
  (∀ view, o ≠ OnClose view) → advances s (run o s).
Proof.
  intros Hclose. destruct o; cbn [run].
  - apply on_modified_advances.
  - apply on_new_advances.
  - apply advances_returned, on_activated_advances.
  - apply on_new_advances.
  - apply on_open_settings_advances.
  - apply advances_returned, on_selection_modified_async_advances.
  - unfold on_pre_save, persist_copy_settings.
    destruct (_ && _); apply advances_refl.
  - apply advances_returned, on_post_save_advances.
  - by destruct (Hclose view).
  - destruct relint; [apply lint_all_views_advances|apply Linter_redraw_all_advances].
  - apply lint_all_views_advances.
  - apply hit_advances.
  - apply lint_advances.
  - apply advances_returned. intros s'. apply highlight_advances.
  - by apply advances_same.
  - by apply advances_same.
Qed.

(** Closing a view keeps the clock and the timestamps of the other views. *)
Lemma on_close_times (view : View) (s : State) :
  let s' := returned (on_close view s) s in
  queue_clock s' = queue_clock s
  ∧ last_hit_times s' = delete (view_id view) (last_hit_times s).
Proof. rewrite on_close_Ok. done. Qed.

Lemma op_close_or_not (o : op) :
  (∃ view, o = OnClose view) ∨ (∀ view, o ≠ OnClose view).
Proof. destruct o; eauto; by right. Qed.

Lemma run_clock (o : op) (s : State) : queue_clock s ≤ queue_clock (run o s).
Proof.
  destruct (op_close_or_not o) as [[view ->]|Hnot].
  - cbn [run]. destruct (on_close_times view s) as [-> _]. lia.
  - by apply run_advances.
Qed.

Lemma run_minted (o : op) (s : State) : minted s → minted (run o s).
Proof.
  intros Hm. destruct (op_close_or_not o) as [[view ->]|Hnot].
  - cbn [run]. destruct (on_close_times view s) as [Hc Ht].
    destruct Hm as [Hpos Hm]. split; [lia|]. intros vid t.
    rewrite Hc, Ht. intros [_ Hv]%lookup_delete_Some. eauto.
  - by apply run_advances.
Qed.

Lemma run_all_clock (ops : list op) (s : State) :
  queue_clock s ≤ queue_clock (run_all ops s).
Proof.
  revert s. induction ops as [|o ops IH]; intros s; cbn; [lia|].
  etrans; [apply (run_clock o)|apply IH].
Qed.

Lemma reachable_minted (s : State) : reachable s → minted s.
Proof.
  intros (mode & show & langs & file & directory & ops & ->).
  assert (minted (init mode show langs file directory)) as Hinit.
  { split; [done|]. intros vid t. cbn. by rewrite lookup_empty. }
  revert Hinit. generalize (init mode show langs file directory).
  induction ops as [|o ops IH]; intros s Hm; [done|].
  cbn. apply IH. by apply run_minted.
Qed.

(** ** [hit] *)

(** C4: two calls of [hit] on a view with content, with any operations in
    between, keep timestamps [t1 < t2] in [last_hit_times], each the value
    [persist.queue.hit] returned to the call and newer than every timestamp
    the queue had minted before; and from a reachable state no operation
    other than the close of the view itself lowers
    [last_hit_times.get(vid, 0)]. [hit] has no return value of its own: the
    timestamp is the one it receives from the queue and stores. *)
Theorem hit_timestamps_increase (s : State) (view1 view2 : View)
  (ops : list op) (o : op) (vid : Z) :
  (view_id view1 = view_id view2 → view_size view1 ≠ 0 → view_size view2 ≠ 0 →
   let linted view s :=
     set_linted_views (λ views, views ∪ {[view_id view]}) (check_syntax view s).2 in
   let s' := run_all ops (hit view1 s) in
   ∃ t1 t2,
     t1 = (queue_hit view1 (linted view1 s)).1
     ∧ t2 = (queue_hit view2 (linted view2 s')).1
     ∧ last_hit_times (hit view1 s) !! view_id view1 = Some t1
     ∧ last_hit_times (hit view2 s') !! view_id view2 = Some t2
     ∧ queue_clock s < t1 ∧ queue_clock s' < t2 ∧ t1 < t2)
  ∧ (reachable s → (∀ view, o = OnClose view → view_id view ≠ vid) →
     last_hit_time vid s ≤ last_hit_time vid (run o s)).
Proof.
  split.
  - intros Hid Hsize1 Hsize2 linted s'.
    destruct (hit_size_nonzero view1 s Hsize1) as [Hc1 Ht1].
    destruct (hit_size_nonzero view2 s' Hsize2) as [Hc2 Ht2].
    eexists _, _. split; [reflexivity|]. split; [reflexivity|].
    rewrite Ht1, Ht2, !lookup_insert_eq.
    unfold queue_hit, linted. state_simpl.
    split; [done|]. split; [done|].
    destruct (check_syntax_frame view1 s) as [Hcs1 _].
    destruct (check_syntax_frame view2 s') as [Hcs2 _].
    pose proof (run_all_clock ops (hit view1 s)) as Hops. fold s' in Hops.
    cbn zeta in Hcs1, Hcs2. lia.
  - intros Hm%reachable_minted Hclose.
    destruct (op_close_or_not o) as [[view ->]|Hnot].
    + cbn [run]. destruct (on_close_times view s) as [_ Ht].
      unfold last_hit_time. rewrite Ht, lookup_delete_ne; [lia|].
      by apply Hclose.
    + by apply run_advances.
Qed.

Lemma hit_timestamps_increase_witness :
  (∃ t1 t2,
     last_hit_times (hit (example_view 0) example_init) !! 1 = Some t1
     ∧ last_hit_times
         (hit (example_view 2)
            (run_all [OnModified (example_view 1);
                      Completed (example_view 1) [linter_a] (Some 1)]
               (hit (example_view 0) example_init))) !! 1 = Some t2
     ∧ t1 < t2)
  ∧ last_hit_time 1 example_init
    ≤ last_hit_time 1 (run (Hit (example_view 0)) example_init).
Proof.
  destruct (hit_timestamps_increase example_init (example_view 0) (example_view 2)
              [OnModified (example_view 1);
               Completed (example_view 1) [linter_a] (Some 1)]
              (Hit (example_view 0)) 1) as [Hhits Hmono].
  split.
  - destruct Hhits as (t1 & t2 & _ & _ & Ht1 & Ht2 & _ & _ & Hlt); [done..|].
    exists t1, t2. split; [exact Ht1|]. split; [exact Ht2|exact Hlt].
  - apply Hmono.
    + by exists "background", false,
        (λ syntax, if decide (syntax = "Python") then [linter_a; linter_b] else []),
        "/packages/SublimeLinter/sublimelinter.py", "SublimeLinter", [].
    + intros view [=].
Defined.

(** ** Completions: [highlight] called back by a lint *)

(** A result that is not stale is committed: the collected highlights are
    stored, cleared and drawn, the collected errors are stored, and the
    status is updated. *)
Lemma highlight_commits (view : View) (linters : list Linter)
  (hit_time : option Z) (s : State) :
  (∀ t, hit_time = Some t → last_hit_time (view_id view) s ≤ t) →
  highlight view linters hit_time s =
  Ok (emit (status_event (view_id view) (collected_errors linters)
              (selection_line view))
        (set_persist_errors (<[view_id view := collected_errors linters]>)
           (emit (Draw (view_id view) (collected_highlights linters))
              (emit (Clear (view_id view) (collected_highlights linters))
                 (set_persist_highlights
                    (<[view_id view := collected_highlights linters]>) s))))).
Proof.
  intros Hfresh. rewrite highlight_unfold.
  assert (match hit_time with
          | Some hit_time => bool_decide (last_hit_time (view_id view) s > hit_time)
          | None => false
          end = false) as ->.
  { destruct hit_time as [t|]; [|done].
    apply bool_decide_eq_false_2. specialize (Hfresh t eq_refl). lia. }
  rewrite on_selection_modified_async_Ok. state_simpl.
  rewrite lookup_insert_eq. unfold status_event.
  by destruct (decide (collected_errors linters ≠ ∅)).
Qed.

(** A stale result only replaces the highlight set stored for the view. *)
Lemma highlight_stale (view : View) (linters : list Linter) (t : Z) (s : State) :
  t < last_hit_time (view_id view) s →
  highlight view linters (Some t) s =
  Ok (set_persist_highlights (<[view_id view := collected_highlights linters]>) s).
Proof.
  intros Hstale. rewrite highlight_unfold.
  rewrite bool_decide_eq_true_2; [done|lia].
Qed.

(** Requests [lint] adds to the lints in flight carry its [hit_time]. *)
Lemma lint_in_flight (vid : Z) (hit_time : option Z) (s : State) (req : LintRequest) :
  req ∈ in_flight (lint vid hit_time s) →
  req ∈ in_flight s ∨ (req_view_id req = vid ∧ req_hit_time req = hit_time).
Proof.
  unfold lint. destruct (Linter_get_view vid s) as [view|]; [|by left].
  unfold Linter_lint_view. state_simpl.
  intros [Hold|Hnew%list_elem_of_singleton]%elem_of_app; [by left|].
  right. by subst req.
Qed.

Lemma hit_in_flight (view : View) (s : State) : in_flight (hit view s) = in_flight s.
Proof.
  destruct (check_syntax_frame view s) as (_ & _ & Hcs & _).
  unfold hit. destruct (decide (view_size view = 0)); by state_simpl.
Qed.

Lemma lint_all_views_in_flight (s : State) : in_flight (lint_all_views s) = in_flight s.
Proof.
  unfold lint_all_views. generalize ((map_to_list (persist_views s)).*2).
  intros views. revert s. induction views as [|view views IH]; intros s; [done|].
  cbn [foldl]. rewrite IH.
  destruct (decide (is_Some (persist_linters s !! view_id view)));
    [apply hit_in_flight|done].
Qed.

(** The lints [on_post_save] starts have no hit time. *)
Lemma on_post_save_in_flight (view : View) (s s' : State) (req : LintRequest) :
  on_post_save view s = Ok s' → req ∈ in_flight s' →
  req ∈ in_flight s ∨ (req_view_id req = view_id view ∧ req_hit_time req = None).
Proof.
  unfold on_post_save, persist_load_settings.
  destruct (decide (view_project_file_name view = view_file_name view)).
  { intros [= <-]. rewrite lint_all_views_in_flight. by left. }
  destruct (view_file_name view) as [file_name|]; [|done]. rewrite bind_Ok.
  destruct (decide (os_path.basename file_name = ".sublimelinterrc")).
  { destruct (decide (file_name = _)); intros [= <-];
      rewrite ?lint_all_views_in_flight; by left. }
  destruct (check_syntax_frame view s) as (_ & _ & Hcs & _).
  destruct (check_syntax view s) as [changed s1]. cbn [snd] in Hcs.
  assert (∀ s2, in_flight s2 = in_flight s →
            req ∈ in_flight (lint (view_id view) None s2) →
            req ∈ in_flight s
            ∨ (req_view_id req = view_id view ∧ req_hit_time req = None)) as Hlint.
  { intros s2 Hs2 Hreq%lint_in_flight. by rewrite <-Hs2. }
  assert (∀ (show_errors : bool) (s2 : State),
            (req ∈ in_flight s2 →
             req ∈ in_flight s
             ∨ (req_view_id req = view_id view ∧ req_hit_time req = None)) →
            (if show_errors
             then Ok (emit (RunCommand (view_id view) "sublimelinter_show_all_errors") s2)
             else Ok s2) = Ok s' →
            req ∈ in_flight s' →
            req ∈ in_flight s
            ∨ (req_view_id req = view_id view ∧ req_hit_time req = None)) as Hshow.
  { intros show_errors s2 Hs2. destruct show_errors; intros [= <-]; exact Hs2. }
  assert (in_flight (clear view s1) = in_flight s) as Hclear by exact Hcs.
  pose proof (Hlint s1 Hcs) as Hlint1.
  pose proof (Hlint (clear view s1) Hclear) as Hlint2.
  assert (req ∈ in_flight s1 →
          req ∈ in_flight s
          ∨ (req_view_id req = view_id view ∧ req_hit_time req = None)) as Hsame1
    by (rewrite Hcs; by left).
  assert (req ∈ in_flight (clear view s1) →
          req ∈ in_flight s
          ∨ (req_view_id req = view_id view ∧ req_hit_time req = None)) as Hsame2
    by (rewrite Hclear; by left).
  destruct changed.
  - destruct (decide (is_Some (persist_linters (clear view s1) !! view_id view)));
      [destruct (decide (lint_mode s1 ≠ "manual"))|];
      first [by apply Hshow | by intros [= <-]].
  - destruct (_ || _); [|destruct (decide (lint_mode s1 = "manual"))];
      first [by apply Hshow | by intros [= <-]].
Qed.

(** C10: a completion without a hit time is committed in every state,
    whatever [last_hit_times] holds for the view: the collected highlights
    are stored, cleared and drawn, the collected errors replace the stored
    ones and the status is updated; and the lints [on_post_save] starts are
    such completions, their requests carry no hit time. *)
Theorem highlight_without_hit_time (view : View) (linters : list Linter)
  (s : State) (saved : View) (s0 s0' : State) (req : LintRequest) :
  (∃ s', highlight view linters None s = Ok s'
     ∧ persist_highlights s' !! view_id view = Some (collected_highlights linters)
     ∧ persist_errors s' !! view_id view = Some (collected_errors linters)
     ∧ ui s' = ui s ++
         [Clear (view_id view) (collected_highlights linters);
          Draw (view_id view) (collected_highlights linters);
          status_event (view_id view) (collected_errors linters)
            (selection_line view)]
     ∧ last_hit_times s' = last_hit_times s)
  ∧ (on_post_save saved s0 = Ok s0' → req ∈ in_flight s0' →
     req ∈ in_flight s0
     ∨ (req_view_id req = view_id saved ∧ req_hit_time req = None)).
Proof.
  split; [|apply on_post_save_in_flight].
  eexists. split; [by apply highlight_commits|]. state_simpl.
  rewrite !lookup_insert_eq, <-!app_assoc. done.
Qed.

Lemma highlight_without_hit_time_witness :
  (∃ s', highlight (example_view 1) [linter_b] None hit_twice = Ok s'
     ∧ persist_highlights s' !! 1 = Some (collected_highlights [linter_b])
     ∧ persist_errors s' !! 1 = Some (collected_errors [linter_b])
     ∧ ui s' = ui hit_twice ++
         [Clear 1 (collected_highlights [linter_b]);
          Draw 1 (collected_highlights [linter_b]);
          status_event 1 (collected_errors [linter_b]) 1]
     ∧ last_hit_times s' = last_hit_times hit_twice)
  ∧ ∃ req, in_flight (returned (on_post_save (example_view 0) before_save) before_save)
           = [req]
      ∧ req_view_id req = 1 ∧ req_hit_time req = None.
Proof.
  set (saved := returned (on_post_save (example_view 0) before_save) before_save).
  assert (∃ req, in_flight saved = [req]) as [req Hreq] by (eexists; by vm_compute).
  destruct (highlight_without_hit_time (example_view 1) [linter_b] hit_twice
              (example_view 0) before_save saved req) as [Hcommit Hsave].
  split; [exact Hcommit|]. exists req. split; [exact Hreq|].
  destruct Hsave as [Hold|Hnew].
  - by vm_compute.
  - rewrite Hreq. by left.
  - by apply elem_of_nil in Hold.
  - exact Hnew.
Defined.

(** C1: the failing input. After two hits the completion of the first lint
    is stale; [highlight] returns without drawing and leaves the stored
    errors as they are, but the highlight set stored for the view is no
    longer the one of the committed result. *)
Theorem stale_result_replaces_highlights :
  last_hit_time 1 hit_twice = 2
  ∧ persist_highlights hit_twice !! 1 = Some (collected_highlights [linter_a])
  ∧ ∃ s', highlight (example_view 0) [linter_b] (Some 1) hit_twice = Ok s'
      ∧ persist_highlights s' !! 1 = Some (collected_highlights [linter_b])
      ∧ persist_highlights s' !! 1 ≠ persist_highlights hit_twice !! 1
      ∧ persist_errors s' = persist_errors hit_twice
      ∧ ui s' = ui hit_twice.
Proof.
  assert (last_hit_time 1 hit_twice = 2) as Htime by (by vm_compute).
  assert (persist_highlights hit_twice !! 1 = Some (collected_highlights [linter_a]))
    as Hstored by (by vm_compute).
  assert (collected_highlights [linter_b] ≠ collected_highlights [linter_a])
    as Hdiffer by (by vm_compute).
  generalize dependent hit_twice. intros s Htime Hstored.
  split; [done|]. split; [done|].
  exists (set_persist_highlights (<[1 := collected_highlights [linter_b]]>) s).
  split; [apply (highlight_stale (example_view 0));
          change (1 < last_hit_time 1 s); lia|].
  state_simpl. rewrite lookup_insert_eq, Hstored.
  split; [done|]. split; [congruence|done].
Qed.




(** ** [hit] on an empty view *)

(** C2, the failing input: [hit] on the emptied view mints nothing. A view
    never hit before is left without a timestamp, and a view hit before
    keeps its old one. *)
Lemma hit_empty_view_mints_nothing :
  view_size emptied_view = 0
  ∧ last_hit_times (hit emptied_view example_init) !! view_id emptied_view = None
  ∧ last_hit_times (hit (example_view 0) example_init) !! 1 = Some 1
  ∧ last_hit_times (hit emptied_view (hit (example_view 0) example_init)) !! 1
    = Some 1
  ∧ queue_clock (hit emptied_view (hit (example_view 0) example_init)) = 1.
Proof. by vm_compute. Qed.

(** C2: the code diverges from the claim. [hit] on a view of size zero
    requests no lint (the pending requests of the queue and the lints in
    flight are as before) and clears every linter bound to the view, as
    claimed; but it returns before [persist.queue.hit], so no timestamp is
    minted: the clock of the queue and [last_hit_times] are as before. The
    lint requested for the content the view had before is therefore still
    the latest one, and its completion, which carries the last hit time of
    the view, is committed: its errors are stored and drawn on the emptied
    view, against the comment on [last_hit_times] in [__init__]. *)
Theorem hit_empty_view (view : View) (s : State) :
  view_size view = 0 →
  let s' := hit view s in
  queue_pending s' = queue_pending s
  ∧ in_flight s' = in_flight s
  ∧ queue_clock s' = queue_clock s
  ∧ last_hit_times s' = last_hit_times s
  ∧ view_id view ∈ linted_views s'
  ∧ Linter_get_linters (view_id view) s' =
      linter_clear <$> Linter_get_linters (view_id view) (check_syntax view s).2
  ∧ (∀ linter, linter ∈ Linter_get_linters (view_id view) s' →
       linter_errors linter = ∅ ∧ linter_highlight linter = None)
  ∧ ∀ view' linters t,
      view_id view' = view_id view →
      last_hit_times s !! view_id view = Some t →
      ∃ s'', highlight view' linters (Some t) s' = Ok s''
        ∧ persist_errors s'' !! view_id view = Some (collected_errors linters)
        ∧ ui s'' = ui s' ++
            [Clear (view_id view) (collected_highlights linters);
             Draw (view_id view) (collected_highlights linters);
             status_event (view_id view) (collected_errors linters)
               (selection_line view')].
Proof.
  intros Hsize s'. subst s'. rewrite (hit_size_zero _ _ Hsize). state_simpl.
  destruct (check_syntax_frame view s) as (Hclock & Hpending & Hflight & Htimes & _).
  cbn zeta in Hclock, Hpending, Hflight, Htimes.
  rewrite Hclock, Hpending, Hflight, Htimes.
  do 4 (split; [done|]). split; [set_solver|].
  assert (Linter_get_linters (view_id view)
            (set_persist_linters (alter (fmap linter_clear) (view_id view))
               (set_linted_views (λ views, views ∪ {[view_id view]})
                  (check_syntax view s).2))
          = linter_clear <$> Linter_get_linters (view_id view) (check_syntax view s).2)
    as ->.
  { unfold Linter_get_linters. state_simpl. rewrite lookup_alter_eq.
    by destruct (persist_linters (check_syntax view s).2 !! view_id view). }
  split; [done|].
  split; [by intros linter (linter' & -> & _)%list_elem_of_fmap|].
  intros view' linters t Hid Ht. eexists. split.
  - apply highlight_commits. intros ? [= <-].
    unfold last_hit_time. state_simpl. by rewrite Hid, Htimes, Ht.
  - state_simpl. by rewrite Hid, lookup_insert_eq, <-!app_assoc.
Qed.

Lemma hit_empty_view_witness :
  queue_pending (hit emptied_view (hit (example_view 0) example_init))
  = queue_pending (hit (example_view 0) example_init)
  ∧ last_hit_times (hit emptied_view (hit (example_view 0) example_init))
    = last_hit_times (hit (example_view 0) example_init)
  ∧ Linter_get_linters 1 (hit emptied_view (hit (example_view 0) example_init))
    = [linter_clear linter_a; linter_clear linter_b]
  ∧ ∃ s'', highlight emptied_view [linter_a] (Some 1)
             (hit emptied_view (hit (example_view 0) example_init)) = Ok s''
      ∧ persist_errors s'' !! 1 = Some (collected_errors [linter_a]).
Proof.
  destruct (hit_empty_view emptied_view (hit (example_view 0) example_init))
    as (Hpending & _ & _ & Htimes & _ & Hlinters & _ & Hcommit); [reflexivity|].
  split; [exact Hpending|]. split; [exact Htimes|].
  split; [etrans; [exact Hlinters|]; by vm_compute|].
  destruct (Hcommit emptied_view [linter_a] 1) as (s'' & Hs'' & Herrors & _);
    [reflexivity|by vm_compute|].
  exists s''. split; [exact Hs''|exact Herrors].
Defined.

(** ** The text of the status line *)

Lemma sum_Permutation (l1 l2 : list Z) : l1 ≡ₚ l2 → sum l1 = sum l2.
Proof.
  unfold sum.
  induction 1 as [|x l1 l2 _ IH|x y l|l1 l2 l3 _ IH1 _ IH2]; cbn [foldr]; lia.
Qed.

(** [count] is the number of errors of the dict. *)
Lemma sum_line_counts (errors : errors_dict) :
  sum (line_counts errors) = error_count errors.
Proof.
  unfold line_counts, sorted_lines, error_count.
  rewrite (sum_Permutation _
             ((λ line, len (default [] (errors !! line))) <$> (map_to_list errors).*1))
    by (by rewrite sorted_Permutation).
  rewrite map_fold_foldr.
  assert (∀ l : list (Z * list error),
            (∀ line errs, (line, errs) ∈ l → errors !! line = Some errs) →
            sum ((λ line, len (default [] (errors !! line))) <$> l.*1)
            = foldr (uncurry (λ (_ : Z) (errs : list error) count, len errs + count)) 0 l)
    as Hsum.
  { induction l as [|[line errs] l IH]; intros Hl; [done|].
    cbn. rewrite (Hl line errs) by left. cbn [from_option id].
    rewrite <-IH; [done|]. intros line' errs' Hin. apply Hl. by right. }
  apply Hsum. intros line errs Hin. by apply elem_of_map_to_list.
Qed.

(** C8: when errors are stored for the view, the dict is not empty and has
    no negative line, the status of a view without selection is computed
    without an exception: [lineno] is [-1], which is not a line of the dict,
    and the text is the count of all errors followed by [error] or
    [errors]. *)
Theorem status_without_selection (view : View) (s : State) (errors : errors_dict) :
  view_sel view = [] →
  persist_errors s !! view_id view = Some errors →
  errors ≠ ∅ →
  (∀ line, is_Some (errors !! line) → 0 ≤ line) →
  selection_line view = -1
  ∧ on_selection_modified_async view s =
    Ok (emit (SetStatus (view_id view)
                (pretty (error_count errors) ++ " error"
                   ++ if decide (error_count errors > 1) then "s" else "")%string) s).
Proof.
  intros Hsel Herrors Hne Hlines.
  assert (selection_line view = -1) as Hline
    by (unfold selection_line; by rewrite Hsel).
  split; [done|].
  rewrite on_selection_modified_async_Ok, Herrors, decide_True by done.
  unfold status_text. rewrite Hline, sum_line_counts.
  destruct (errors !! (-1)) as [errs|] eqn:Hminus; [|done].
  assert (0 ≤ -1) by (apply Hlines; eauto). lia.
Qed.

Lemma status_without_selection_witness :
  on_selection_modified_async unselected_view
    (set_persist_errors (<[1 := example_errors 0 4 8]>) example_init)
  = Ok (emit (SetStatus 1 "3 errors")
          (set_persist_errors (<[1 := example_errors 0 4 8]>) example_init)).
Proof.
  destruct (status_without_selection unselected_view
              (set_persist_errors (<[1 := example_errors 0 4 8]>) example_init)
              (example_errors 0 4 8)) as [_ Hstatus].
  - reflexivity.
  - by vm_compute.
  - intros Hempty. apply (f_equal (lookup 2)) in Hempty. by vm_compute in Hempty.
  - intros line [errs Hline].
    unfold example_errors in Hline.
    apply lookup_insert_Some in Hline as [[<- _]|[_ Hline]]; [lia|].
    apply lookup_singleton_Some in Hline as [<- _]. lia.
  - etrans; [exact Hstatus|]. by vm_compute.
Defined.

Lemma example_errors_nonempty (c0 c1 c2 : Z) : example_errors c0 c1 c2 ≠ ∅.
Proof.
  intros Hempty. apply (f_equal (lookup 2)) in Hempty.
  unfold example_errors in Hempty.
  by rewrite lookup_insert_eq, lookup_empty in Hempty.
Qed.

Lemma example_errors_lines (c0 c1 c2 : Z) :
  sorted_lines (example_errors c0 c1 c2) = [2; 5]
  ∧ line_counts (example_errors c0 c1 c2) = [1; 2].
Proof. by vm_compute. Qed.

Lemma example_errors_lookup (c0 c1 c2 : Z) :
  example_errors c0 c1 c2 !! 2 = Some [(c0, "bad indent")]
  ∧ example_errors c0 c1 c2 !! 5
    = Some [(c1, "unused var"); (c2, "missing semicolon")]
  ∧ example_errors c0 c1 c2 !! 9 = None.
Proof. by vm_compute. Qed.

(** The text for the example dict at its three cursor lines. *)
Lemma status_text_example (c0 c1 c2 : Z) :
  c1 ≤ c2 →
  status_text (example_errors c0 c1 c2) 5
  = "2-3 of 3 errors: unused var; missing semicolon"
  ∧ status_text (example_errors c0 c1 c2) 2 = "1 of 3 errors: bad indent"
  ∧ status_text (example_errors c0 c1 c2) 9 = "3 errors".
Proof.
  intros Hcols. unfold status_text.
  destruct (example_errors_lines c0 c1 c2) as [-> ->].
  destruct (example_errors_lookup c0 c1 c2) as (-> & -> & ->).
  unfold sorted. cbn [foldr insert_by fst].
  rewrite (proj2 (Z.leb_le c1 c2) Hcols).
  by vm_compute.
Qed.

(** With one error in all, the text for a line of the dict starts with
    [Error: ]. *)
Lemma status_text_single (errors : errors_dict) (lineno : Z) :
  error_count errors = 1 → is_Some (errors !! lineno) →
  ∃ messages, status_text errors lineno = ("Error: " ++ messages)%string.
Proof.
  intros Hcount [errs Herrs]. unfold status_text.
  rewrite Herrs, sum_line_counts, Hcount, decide_False by lia. eauto.
Qed.

(** C6: for the dict with "bad indent" at line 2 and "unused var" and
    "missing semicolon", in the order of their columns, at line 5, the
    status set is "2-3 of 3 errors: unused var; missing semicolon" with the
    cursor on line 5, "1 of 3 errors: bad indent" on line 2 and "3 errors"
    on line 9; for a dict with one error in all and the cursor on a line of
    the dict the text starts with "Error: "; and for an empty dict the
    status is erased. *)
Theorem status_formatting (view : View) (s : State) (c0 c1 c2 : Z)
  (errors : errors_dict) :
  (persist_errors s !! view_id view = Some (example_errors c0 c1 c2) →
   c1 ≤ c2 →
   (selection_line view = 5 →
    on_selection_modified_async view s =
    Ok (emit (SetStatus (view_id view)
                "2-3 of 3 errors: unused var; missing semicolon") s))
   ∧ (selection_line view = 2 →
      on_selection_modified_async view s =
      Ok (emit (SetStatus (view_id view) "1 of 3 errors: bad indent") s))
   ∧ (selection_line view = 9 →
      on_selection_modified_async view s =
      Ok (emit (SetStatus (view_id view) "3 errors") s)))
  ∧ (persist_errors s !! view_id view = Some errors →
     error_count errors = 1 →
     is_Some (errors !! selection_line view) →
     ∃ messages,
       on_selection_modified_async view s =
       Ok (emit (SetStatus (view_id view) ("Error: " ++ messages)%string) s))
  ∧ (persist_errors s !! view_id view = Some ∅ →
     on_selection_modified_async view s = Ok (emit (EraseStatus (view_id view)) s)).
Proof.
  rewrite on_selection_modified_async_Ok.
  split; [|split].
  - intros -> Hcols.
    rewrite decide_True by apply example_errors_nonempty.
    destruct (status_text_example c0 c1 c2 Hcols) as (H5 & H2 & H9).
    repeat split; intros ->; by rewrite ?H5, ?H2, ?H9.
  - intros -> Hcount Hline.
    destruct (status_text_single errors _ Hcount Hline) as [messages ->].
    exists messages. rewrite decide_True; [done|].
    intros ->. by rewrite lookup_empty in Hline; destruct Hline.
  - intros ->. rewrite decide_False; [done|]. by intros [].
Qed.

Lemma status_formatting_witness :
  let s := set_persist_errors (<[1 := example_errors 0 4 8]>) example_init in
  on_selection_modified_async (example_view 5) s
  = Ok (emit (SetStatus 1 "2-3 of 3 errors: unused var; missing semicolon") s)
  ∧ on_selection_modified_async (example_view 2) s
    = Ok (emit (SetStatus 1 "1 of 3 errors: bad indent") s)
  ∧ on_selection_modified_async (example_view 9) s
    = Ok (emit (SetStatus 1 "3 errors") s)
  ∧ (∃ messages,
       on_selection_modified_async (example_view 1)
         (set_persist_errors (<[1 := {[ 1 := [(3, "a")] ]}]>) example_init)
       = Ok (emit (SetStatus 1 ("Error: " ++ messages)%string)
               (set_persist_errors (<[1 := {[ 1 := [(3, "a")] ]}]>) example_init)))
  ∧ on_selection_modified_async (example_view 0)
      (set_persist_errors (<[1 := ∅]>) example_init)
    = Ok (emit (EraseStatus 1) (set_persist_errors (<[1 := ∅]>) example_init)).
Proof.
  intros s.
  destruct (status_formatting (example_view 5) s 0 4 8 ∅) as [H5 _].
  destruct (status_formatting (example_view 2) s 0 4 8 ∅) as [H2 _].
  destruct (status_formatting (example_view 9) s 0 4 8 ∅) as [H9 _].
  destruct (status_formatting (example_view 1)
              (set_persist_errors (<[1 := {[ 1 := [(3, "a")] ]}]>) example_init)
              0 0 0 {[ 1 := [(3, "a")] ]}) as (_ & Hsingle & _).
  destruct (status_formatting (example_view 0)
              (set_persist_errors (<[1 := ∅]>) example_init) 0 0 0 ∅)
    as (_ & _ & Hempty).
  split; [apply H5; [by vm_compute|lia|reflexivity]|].
  split; [apply H2; [by vm_compute|lia|reflexivity]|].
  split; [apply H9; [by vm_compute|lia|reflexivity]|].
  split; [apply Hsingle; [by vm_compute|by vm_compute|vm_compute; by eexists]|].
  apply Hempty. by vm_compute.
Defined.

(** ** The order of the linters *)

(** The errors of a line after one linter is folded in. *)
Lemma extend_errors_lookup (errors linter_errors : errors_dict) (line : Z) :
  extend_errors errors linter_errors !! line =
  match linter_errors !! line with
  | Some errs => Some (default [] (errors !! line) ++ errs)
  | None => errors !! line
  end.
Proof.
  unfold extend_errors. revert line.
  apply (map_fold_weak_ind
           (λ (r m : errors_dict), ∀ line,
              r !! line = match m !! line with
                          | Some errs => Some (default [] (errors !! line) ++ errs)
                          | None => errors !! line
                          end)).
  - intros line. by rewrite lookup_empty.
  - intros i errs m r Hi Hr line.
    destruct (decide (i = line)) as [->|Hne].
    + rewrite !lookup_insert_eq. f_equal. f_equal. f_equal.
      by rewrite Hr, Hi.
    + rewrite !lookup_insert_ne by done. apply Hr.
Qed.

Lemma collect_errors_lookup (errors : errors_dict) (linter : Linter) (line : Z) :
  collect_errors errors linter !! line =
  match linter_errors linter !! line with
  | Some errs => Some (default [] (errors !! line) ++ errs)
  | None => errors !! line
  end.
Proof.
  unfold collect_errors.
  destruct (decide (linter_errors linter ≠ ∅)) as [_|Hempty].
  - apply extend_errors_lookup.
  - apply dec_stable in Hempty. by rewrite Hempty, lookup_empty.
Qed.

(** The errors of a line after the loop: those already there, then those
    of each linter in turn. *)
Lemma foldl_collect_errors_lookup (linters : list Linter) (errors : errors_dict)
  (line : Z) :
  foldl collect_errors errors linters !! line =
  if decide (is_Some (errors !! line)
             ∨ Exists (λ linter, is_Some (linter_errors linter !! line)) linters)
  then Some (default [] (errors !! line)
               ++ concat ((λ linter, default [] (linter_errors linter !! line))
                            <$> linters))
  else None.
Proof.
  revert errors. induction linters as [|linter linters IH]; intros errors.
  - cbn [foldl fmap list_fmap concat]. rewrite app_nil_r.
    destruct (errors !! line) as [errs|].
    + rewrite decide_True; [done|]. left. eauto.
    + rewrite decide_False; [done|].
      intros [[? [=]]|Hex]. by apply Exists_nil in Hex.
  - cbn [foldl]. rewrite IH, collect_errors_lookup, fmap_cons.
    cbn [concat].
    destruct (linter_errors linter !! line) as [errs|] eqn:Hlinter.
    + rewrite decide_True by (left; eauto).
      rewrite decide_True
        by (right; apply Exists_cons; left; rewrite Hlinter; eauto).
      cbn [from_option id]. by rewrite <-app_assoc.
    + cbn [from_option id app]. apply decide_ext. rewrite Exists_cons, Hlinter.
      split; [intros [?|?]; auto|].
      intros [?|[[? [=]]|?]]; auto.
Qed.









(** *** Sorting *)

Lemma insert_by_Sorted {A} (key : A → Z) (x : A) (l : list A) :
  Sorted (λ y z, key y ≤ key z) l →
  Sorted (λ y z, key y ≤ key z) (insert_by key x l).
Proof.
  induction 1 as [|y l Hl IH Hy]; cbn [insert_by].
  - by repeat constructor.
  - destruct (key x <=? key y) eqn:Hxy.
    + apply Z.leb_le in Hxy. by repeat constructor.
    + apply Z.leb_gt in Hxy. constructor; [done|].
      destruct Hy as [|z l Hyz]; cbn [insert_by].
      * constructor. lia.
      * destruct (key x <=? key z); constructor; [lia|done].
Qed.

Lemma sorted_Sorted {A} (key : A → Z) (l : list A) :
  Sorted (λ y z, key y ≤ key z) (sorted key l).
Proof.
  induction l as [|x l IH]; [constructor|].
  cbn [sorted foldr]. by apply insert_by_Sorted.
Qed.







(** *** What the linters report for a line *)








(** *** The status of two such dicts *)










(** ** The status line: what it touches and the rank it shows *)

(** X1: [on_selection_modified_async] never raises and changes nothing but
    the status of its view: without errors stored for the view the state is
    untouched, with an empty dict the status is erased, and otherwise one
    status text is set. *)
Theorem on_selection_modified_async_only_status (view : View) (s : State) :
  ∃ s', on_selection_modified_async view s = Ok s'
    ∧ ((persist_errors s !! view_id view = None ∧ s' = s)
       ∨ (persist_errors s !! view_id view = Some ∅
          ∧ s' = emit (EraseStatus (view_id view)) s)
       ∨ (∃ errors text,
            persist_errors s !! view_id view = Some errors ∧ errors ≠ ∅
            ∧ s' = emit (SetStatus (view_id view) text) s)).
Proof.
  rewrite on_selection_modified_async_Ok. eexists. split; [reflexivity|].
  destruct (persist_errors s !! view_id view) as [errors|]; [|by left].
  right. destruct (decide (errors ≠ ∅)) as [Hne|Hempty].
  - right. by exists errors, (status_text errors (selection_line view)).
  - left. apply dec_stable in Hempty. by subst errors.
Qed.

(** *** Lines before the cursor line *)

Lemma sorted_lines_Sorted (errors : errors_dict) : Sorted Z.le (sorted_lines errors).
Proof. apply (sorted_Sorted id). Qed.

Lemma sorted_lines_NoDup (errors : errors_dict) : NoDup (sorted_lines errors).
Proof.
  unfold sorted_lines. rewrite sorted_Permutation. apply NoDup_fst_map_to_list.
Qed.

Lemma filter_none (P : Z → Prop) `{∀ x, Decision (P x)} (l : list Z) :
  Forall (λ x, ¬ P x) l → filter P l = [].
Proof. induction 1; [done|]. by rewrite filter_cons_False. Qed.

Lemma filter_StronglySorted (P : Z → Prop) `{∀ x, Decision (P x)} (l : list Z) :
  StronglySorted Z.le l → StronglySorted Z.le (filter P l).
Proof.
  induction 1 as [|x l Hl IH Hx]; [constructor|].
  rewrite filter_cons. destruct (decide (P x)); [|done].
  constructor; [done|]. rewrite Forall_forall in Hx. apply Forall_forall.
  intros y [_ Hy]%list_elem_of_filter. by apply Hx.
Qed.

(** In a list sorted without repetition, the elements before the position
    of [x] are the smaller ones. *)
Lemma take_position_filter (l : list Z) (x : Z) :
  Sorted Z.le l → NoDup l → x ∈ l →
  take (position l x) l = filter (λ y, y < x) l.
Proof.
  intros Hsorted%Sorted_StronglySorted; [|intros ???; lia].
  induction Hsorted as [|y l Hl IH Hy]; intros Hnodup Hx; [by apply elem_of_nil in Hx|].
  apply NoDup_cons in Hnodup as [Hnotin Hnodup]. rewrite Forall_forall in Hy.
  cbn [position]. destruct (decide (y = x)) as [->|Hne].
  - cbn [take]. rewrite filter_cons_False by lia.
    symmetry. apply filter_none, Forall_forall. intros z Hz.
    specialize (Hy z Hz). assert (z ≠ x) by (by intros ->). lia.
  - apply elem_of_cons in Hx as [->|Hx]; [done|].
    specialize (Hy x Hx). cbn [take].
    rewrite filter_cons_True by lia. f_equal. by apply IH.
Qed.

Lemma position_lookup (l : list Z) (x : Z) : x ∈ l → l !! position l x = Some x.
Proof.
  induction l as [|y l IH]; intros Hx; [by apply elem_of_nil in Hx|].
  cbn [position]. destruct (decide (y = x)) as [->|Hne]; [done|].
  apply elem_of_cons in Hx as [->|Hx]; [done|]. by apply IH.
Qed.

(** The lines of the part of a dict before [lineno]. *)
Lemma sorted_lines_filter (errors : errors_dict) (lineno : Z) :
  sorted_lines (filter (λ entry, entry.1 < lineno) errors)
  = filter (λ line, line < lineno) (sorted_lines errors).
Proof.
  assert (Transitive Z.le) by (intros ???; lia).
  assert (AntiSymm eq Z.le) by (intros ???; lia).
  apply (Sorted_unique Z.le).
  - apply sorted_lines_Sorted.
  - apply StronglySorted_Sorted, filter_StronglySorted, Sorted_StronglySorted;
      [done|apply sorted_lines_Sorted].
  - apply NoDup_Permutation.
    + apply sorted_lines_NoDup.
    + apply NoDup_filter, sorted_lines_NoDup.
    + intros line. rewrite list_elem_of_filter, !elem_of_sorted_lines.
      split.
      * intros [errs [Hline Hlt]%map_lookup_filter_Some]. eauto.
      * intros [Hlt [errs Hline]]. exists errs.
        by apply map_lookup_filter_Some.
Qed.

(** The sum of the counts before the cursor line. *)
Lemma sum_counts_before (errors : errors_dict) (lineno : Z) :
  is_Some (errors !! lineno) →
  sum (take (position (sorted_lines errors) lineno) (line_counts errors))
  = errors_before errors lineno.
Proof.
  intros Hline%elem_of_sorted_lines. unfold errors_before.
  rewrite <-sum_line_counts. unfold line_counts at 1 2.
  rewrite <-fmap_take, sorted_lines_filter.
  rewrite take_position_filter
    by auto using sorted_lines_Sorted, sorted_lines_NoDup.
  f_equal. apply list_fmap_ext.
  intros _ line [Hlt _]%list_elem_of_lookup_2%list_elem_of_filter.
  f_equal. f_equal.
  destruct (errors !! line) as [errs|] eqn:Herrs; symmetry.
  - by apply map_lookup_filter_Some.
  - apply map_lookup_filter_None. by left.
Qed.

Lemma sum_nonneg (l : list Z) : Forall (λ x, 0 ≤ x) l → 0 ≤ sum l.
Proof. unfold sum. induction 1; cbn [foldr]; lia. Qed.

Lemma sum_app (l1 l2 : list Z) : sum (l1 ++ l2) = sum l1 + sum l2.
Proof. unfold sum. induction l1 as [|x l1 IH]; cbn [foldr app]; lia. Qed.

Lemma line_counts_nonneg (errors : errors_dict) :
  Forall (λ x, 0 ≤ x) (line_counts errors).
Proof. apply Forall_fmap, Forall_true. intros line. cbn. unfold len. lia. Qed.

(** The errors before the cursor line and those of the line are among all
    the errors. *)
Lemma errors_before_bound (errors : errors_dict) (lineno : Z) (errs : list error) :
  errors !! lineno = Some errs →
  0 ≤ errors_before errors lineno
  ∧ errors_before errors lineno + len errs ≤ error_count errors.
Proof.
  intros Herrs.
  assert (lineno ∈ sorted_lines errors) as Hin
    by (apply elem_of_sorted_lines; eauto).
  rewrite <-(sum_counts_before errors lineno) by eauto.
  rewrite <-sum_line_counts.
  set (n := position (sorted_lines errors) lineno).
  assert (line_counts errors !! n = Some (len errs)) as Hn.
  { unfold line_counts. rewrite list_lookup_fmap.
    unfold n. rewrite (position_lookup _ _ Hin). cbn. by rewrite Herrs. }
  pose proof (line_counts_nonneg errors) as Hnonneg.
  rewrite <-(take_drop_middle _ _ _ Hn) at 3. rewrite sum_app.
  change (sum (len errs :: drop (S n) (line_counts errors)))
    with (len errs + sum (drop (S n) (line_counts errors))).
  assert (0 ≤ sum (take n (line_counts errors)))
    by (by apply sum_nonneg, Forall_take).
  assert (0 ≤ sum (drop (S n) (line_counts errors)))
    by (by apply sum_nonneg, Forall_drop).
  lia.
Qed.

(** X2: with more than one error in all and the cursor on a line of the
    dict, the status shows the rank range of the errors of the line: the
    first rank is one more than the number of errors on the lines before,
    the last one is shown when the line has several errors, the messages
    follow in the order of their columns, and for a line with an error the
    ranks lie between 1 and the count. *)
Theorem status_rank_range (view : View) (s : State) (errors : errors_dict)
  (errs : list error) :
  persist_errors s !! view_id view = Some errors →
  errors !! selection_line view = Some errs →
  error_count errors > 1 →
  let first := errors_before errors (selection_line view) + 1 in
  let last := first + len errs - 1 in
  let messages := join "; " (snd <$> sorted fst errs) in
  on_selection_modified_async view s =
  Ok (emit (SetStatus (view_id view)
              ((if decide (len errs > 1)
                then pretty first ++ "-" ++ pretty last ++ " of "
                       ++ pretty (error_count errors) ++ " errors: "
                else pretty first ++ " of " ++ pretty (error_count errors)
                       ++ " errors: ") ++ messages)%string) s)
  ∧ (errs ≠ [] → 1 ≤ first ∧ first ≤ last ∧ last ≤ error_count errors).
Proof.
  intros Herrors Herrs Hcount first last messages. split.
  - rewrite on_selection_modified_async_Ok, Herrors.
    assert (errors ≠ ∅) as Hne by (intros ->; by rewrite lookup_empty in Herrs).
    rewrite decide_True by done. do 2 f_equal.
    unfold status_text. rewrite Herrs, sum_line_counts, decide_True by done.
    rewrite sum_counts_before by eauto.
    assert (len (snd <$> sorted fst errs) = len errs) as ->.
    { unfold len. by rewrite length_fmap, sorted_Permutation. }
    reflexivity.
  - intros Hne. destruct (errors_before_bound errors _ errs Herrs) as [Hpos Hbound].
    assert (1 ≤ len errs) by (unfold len; destruct errs; [done|cbn; lia]).
    unfold last, first. lia.
Qed.

Lemma status_rank_range_witness :
  on_selection_modified_async (example_view 5)
    (set_persist_errors (<[1 := example_errors 0 4 8]>) example_init)
  = Ok (emit (SetStatus 1 "2-3 of 3 errors: unused var; missing semicolon")
          (set_persist_errors (<[1 := example_errors 0 4 8]>) example_init))
  ∧ errors_before (example_errors 0 4 8) 5 = 1.
Proof.
  destruct (status_rank_range (example_view 5)
              (set_persist_errors (<[1 := example_errors 0 4 8]>) example_init)
              (example_errors 0 4 8)
              [(4, "unused var"); (8, "missing semicolon")]) as [Hstatus _].
  - by vm_compute.
  - by vm_compute.
  - by vm_compute.
  - split; [|by vm_compute]. etrans; [exact Hstatus|]. by vm_compute.
Defined.

(** ** What a committed result stores *)

Lemma len_app {A} (l1 l2 : list A) : len (l1 ++ l2) = len l1 + len l2.
Proof. unfold len. rewrite length_app. lia. Qed.

Lemma error_count_empty : error_count ∅ = 0.
Proof. unfold error_count. by rewrite map_fold_empty. Qed.

Lemma error_count_insert (errors : errors_dict) (line : Z) (errs : list error) :
  errors !! line = None →
  error_count (<[line := errs]> errors) = len errs + error_count errors.
Proof.
  intros Hline. unfold error_count.
  rewrite map_fold_insert_L; [done| |done]. intros. lia.
Qed.

Lemma error_count_delete (errors : errors_dict) (line : Z) :
  error_count errors
  = len (default [] (errors !! line)) + error_count (delete line errors).
Proof.
  destruct (errors !! line) as [errs|] eqn:Hline; cbn [from_option id].
  - rewrite <-(insert_delete_id errors line errs Hline) at 1.
    apply error_count_insert, lookup_delete_eq.
  - rewrite delete_id by done. unfold len. cbn. lia.
Qed.

Lemma error_count_insert_delete (errors : errors_dict) (line : Z)
  (errs : list error) :
  error_count (<[line := errs]> errors)
  = len errs + error_count (delete line errors).
Proof.
  rewrite <-insert_delete_eq. apply error_count_insert, lookup_delete_eq.
Qed.

(** The inner loop adds the errors of the linter, no more and no fewer. *)
Lemma error_count_extend (errors linter_errors : errors_dict) :
  error_count (extend_errors errors linter_errors)
  = error_count errors + error_count linter_errors.
Proof.
  unfold extend_errors.
  apply (map_fold_weak_ind
           (λ (r m : errors_dict),
              error_count r = error_count errors + error_count m)).
  - rewrite error_count_empty. lia.
  - intros line errs m r Hline Hr.
    rewrite error_count_insert_delete, len_app, (error_count_insert m) by done.
    rewrite (error_count_delete r line) in Hr. lia.
Qed.

Lemma error_count_collect (errors : errors_dict) (linter : Linter) :
  error_count (collect_errors errors linter)
  = error_count errors + error_count (linter_errors linter).
Proof.
  unfold collect_errors.
  destruct (decide (linter_errors linter ≠ ∅)) as [_|Hempty].
  - apply error_count_extend.
  - apply dec_stable in Hempty. rewrite Hempty, error_count_empty. lia.
Qed.

Lemma error_count_foldl (linters : list Linter) (errors : errors_dict) :
  error_count (foldl collect_errors errors linters)
  = error_count errors + sum ((λ linter, error_count (linter_errors linter)) <$> linters).
Proof.
  revert errors. induction linters as [|linter linters IH]; intros errors.
  - cbn. lia.
  - cbn [foldl]. rewrite IH, error_count_collect, fmap_cons.
    change (sum (?x :: ?l)) with (x + sum l). lia.
Qed.

(** X3: a result that is not stale stores for the view a dict that has a
    line exactly when some linter reports the line, and holds for it the
    errors of the linters one after the other, in the order of the linters
    and, within a linter, in its own order. *)
Theorem committed_errors_by_line (view : View) (linters : list Linter)
  (hit_time : option Z) (s s' : State) (line : Z) :
  (∀ t, hit_time = Some t → last_hit_time (view_id view) s ≤ t) →
  highlight view linters hit_time s = Ok s' →
  ∃ errors,
    persist_errors s' !! view_id view = Some errors
    ∧ errors !! line =
      if decide (Exists (λ linter, is_Some (linter_errors linter !! line)) linters)
      then Some (concat ((λ linter, default [] (linter_errors linter !! line))
                           <$> linters))
      else None.
Proof.
  intros Hfresh. rewrite (highlight_commits _ _ _ _ Hfresh). intros [= <-].
  exists (collected_errors linters). state_simpl.
  split; [apply lookup_insert_eq|].
  unfold collected_errors. rewrite foldl_collect_errors_lookup, lookup_empty.
  cbn [from_option id app]. apply decide_ext.
  split; [intros [[? [=]]|?]; done|by right].
Qed.

Lemma committed_errors_by_line_witness :
  ∃ errors,
    persist_errors
      (returned (highlight (example_view 1) [linter_b; linter_c; linter_a] None
                   example_init) example_init) !! 1 = Some errors
    ∧ errors !! 1 = Some [(3, "b"); (5, "c"); (3, "a")]
    ∧ errors !! 2 = None.
Proof.
  set (s' := returned (highlight (example_view 1) [linter_b; linter_c; linter_a]
                         None example_init) example_init).
  assert (highlight (example_view 1) [linter_b; linter_c; linter_a] None
            example_init = Ok s') as Hs' by (by vm_compute).
  destruct (committed_errors_by_line (example_view 1)
              [linter_b; linter_c; linter_a] None example_init s' 1)
    as (errors & Herrors & Hline1); [by intros t [=]|exact Hs'|].
  destruct (committed_errors_by_line (example_view 1)
              [linter_b; linter_c; linter_a] None example_init s' 2)
    as (errors' & Herrors' & Hline2); [by intros t [=]|exact Hs'|].
  exists errors. split; [exact Herrors|].
  rewrite Herrors in Herrors'. injection Herrors' as <-.
  split.
  - etrans; [exact Hline1|]. by vm_compute.
  - etrans; [exact Hline2|]. by vm_compute.
Defined.

(** X4: the dict a result that is not stale stores for the view has as
    many errors as the linters report together: the loop of [highlight]
    neither drops nor repeats an error. *)
Theorem committed_errors_count (view : View) (linters : list Linter)
  (hit_time : option Z) (s s' : State) :
  (∀ t, hit_time = Some t → last_hit_time (view_id view) s ≤ t) →
  highlight view linters hit_time s = Ok s' →
  ∃ errors,
    persist_errors s' !! view_id view = Some errors
    ∧ error_count errors
      = sum ((λ linter, error_count (linter_errors linter)) <$> linters).
Proof.
  intros Hfresh. rewrite (highlight_commits _ _ _ _ Hfresh). intros [= <-].
  exists (collected_errors linters). state_simpl.
  split; [apply lookup_insert_eq|].
  unfold collected_errors. rewrite error_count_foldl, error_count_empty. lia.
Qed.

Lemma committed_errors_count_witness :
  ∃ errors,
    persist_errors
      (returned (highlight (example_view 1) [linter_b; linter_c; linter_a] None
                   example_init) example_init) !! 1 = Some errors
    ∧ error_count errors = 3.
Proof.
  set (s' := returned (highlight (example_view 1) [linter_b; linter_c; linter_a]
                         None example_init) example_init).
  destruct (committed_errors_count (example_view 1)
              [linter_b; linter_c; linter_a] None example_init s')
    as (errors & Herrors & Hcount); [by intros t [=]|by vm_compute|].
  exists errors. split; [exact Herrors|].
  etrans; [exact Hcount|]. by vm_compute.
Defined.

(** ** Completions and hits *)

(** X5: a completion with a hit time never raises; it always replaces the
    highlight set stored for its view and touches no map of the plugin
    instance, no linter and no queue. When its hit time is older than the
    last hit time of the view nothing is drawn and the stored errors and
    status stay; otherwise, also when both are equal, the highlights are
    cleared and drawn, the errors of the view are replaced and the status
    is updated. *)
Theorem completion_fresh_or_stale (view : View) (linters : list Linter) (t : Z)
  (s : State) :
  ∃ s', highlight view linters (Some t) s = Ok s'
    ∧ persist_highlights s'
      = <[view_id view := collected_highlights linters]> (persist_highlights s)
    ∧ (loaded_views s' = loaded_views s ∧ linted_views s' = linted_views s
       ∧ view_syntax s' = view_syntax s ∧ last_hit_times s' = last_hit_times s
       ∧ persist_linters s' = persist_linters s
       ∧ queue_clock s' = queue_clock s ∧ queue_pending s' = queue_pending s
       ∧ in_flight s' = in_flight s)
    ∧ (t < last_hit_time (view_id view) s →
       ui s' = ui s ∧ persist_errors s' = persist_errors s)
    ∧ (last_hit_time (view_id view) s ≤ t →
       ui s' = ui s ++
         [Clear (view_id view) (collected_highlights linters);
          Draw (view_id view) (collected_highlights linters);
          status_event (view_id view) (collected_errors linters)
            (selection_line view)]
       ∧ persist_errors s'
         = <[view_id view := collected_errors linters]> (persist_errors s)).
Proof.
  destruct (decide (t < last_hit_time (view_id view) s)) as [Hstale|Hfresh].
  - rewrite (highlight_stale _ _ _ _ Hstale). eexists. split; [reflexivity|].
    state_simpl. repeat split; try done; lia.
  - rewrite highlight_commits by (intros ? [= <-]; lia).
    eexists. split; [reflexivity|]. state_simpl.
    rewrite <-!app_assoc. repeat split; try done; lia.
Qed.

Lemma completion_fresh_or_stale_witness :
  (∃ s', highlight (example_view 0) [linter_b] (Some 1) hit_twice = Ok s'
     ∧ ui s' = ui hit_twice ∧ persist_errors s' = persist_errors hit_twice)
  ∧ (∃ s', highlight (example_view 0) [linter_b] (Some 2) hit_twice = Ok s'
       ∧ persist_errors s'
         = <[1 := collected_errors [linter_b]]> (persist_errors hit_twice)).
Proof.
  assert (last_hit_time 1 hit_twice = 2) as Htime by (by vm_compute).
  split.
  - destruct (completion_fresh_or_stale (example_view 0) [linter_b] 1 hit_twice)
      as (s' & Hs' & _ & _ & Hstale & _).
    exists s'. split; [exact Hs'|]. apply Hstale.
    change (1 < last_hit_time 1 hit_twice). rewrite Htime. lia.
  - destruct (completion_fresh_or_stale (example_view 0) [linter_b] 2 hit_twice)
      as (s' & Hs' & _ & _ & _ & Hfresh).
    exists s'. split; [exact Hs'|]. apply Hfresh.
    change (last_hit_time 1 hit_twice ≤ 2). rewrite Htime. lia.
Defined.

(** X6: of two hits of a view with content, with any operations in
    between, the completion that carries the timestamp of the first one is
    discarded after the second (nothing drawn, errors kept), and the one
    that carries the timestamp of the second is committed. *)
Theorem latest_hit_wins (s : State) (view1 view2 view : View) (ops : list op)
  (linters : list Linter) :
  view_id view1 = view_id view → view_id view2 = view_id view →
  view_size view1 ≠ 0 → view_size view2 ≠ 0 →
  let s1 := hit view1 s in
  let s2 := hit view2 (run_all ops s1) in
  ∃ t1 t2,
    last_hit_times s1 !! view_id view = Some t1
    ∧ last_hit_times s2 !! view_id view = Some t2
    ∧ (∃ s', highlight view linters (Some t1) s2 = Ok s'
         ∧ ui s' = ui s2 ∧ persist_errors s' = persist_errors s2)
    ∧ (∃ s', highlight view linters (Some t2) s2 = Ok s'
         ∧ persist_errors s' !! view_id view = Some (collected_errors linters)
         ∧ ui s' = ui s2 ++
             [Clear (view_id view) (collected_highlights linters);
              Draw (view_id view) (collected_highlights linters);
              status_event (view_id view) (collected_errors linters)
                (selection_line view)]).
Proof.
  intros Hid1 Hid2 Hsize1 Hsize2 s1 s2.
  destruct (hit_size_nonzero view1 s Hsize1) as [Hc1 Ht1].
  destruct (hit_size_nonzero view2 (run_all ops s1) Hsize2) as [Hc2 Ht2].
  fold s1 in Hc1, Ht1. fold s2 in Hc2, Ht2.
  destruct (check_syntax_frame view2 (run_all ops s1)) as [Hcs2 _].
  cbn zeta in Hcs2. rewrite Hcs2 in Hc2, Ht2.
  pose proof (run_all_clock ops s1) as Hops.
  assert (last_hit_time (view_id view) s2 = queue_clock (run_all ops s1) + 1)
    as Htime.
  { unfold last_hit_time. by rewrite Ht2, Hid2, lookup_insert_eq. }
  eexists _, _. split; [by rewrite Ht1, Hid1, lookup_insert_eq|].
  split; [by rewrite Ht2, Hid2, lookup_insert_eq|]. split.
  - eexists. split; [apply highlight_stale; lia|]. by state_simpl.
  - eexists. split; [apply highlight_commits; intros ? [= <-]; lia|].
    state_simpl. by rewrite lookup_insert_eq, <-!app_assoc.
Qed.

Lemma latest_hit_wins_witness :
  ∃ t1 t2,
    last_hit_times (hit (example_view 0) example_init) !! 1 = Some t1
    ∧ last_hit_times
        (hit (example_view 2)
           (run_all [OnSelectionModifiedAsync (example_view 1)]
              (hit (example_view 0) example_init))) !! 1 = Some t2
    ∧ t1 = 1 ∧ t2 = 2.
Proof.
  destruct (latest_hit_wins example_init (example_view 0) (example_view 2)
              (example_view 1) [OnSelectionModifiedAsync (example_view 1)]
              [linter_a]) as (t1 & t2 & Ht1 & Ht2 & _); [done..|].
  exists t1, t2. split; [exact Ht1|]. split; [exact Ht2|].
  assert (last_hit_times (hit (example_view 0) example_init) !! 1 = Some 1)
    as H1 by (by vm_compute).
  assert (last_hit_times
            (hit (example_view 2)
               (run_all [OnSelectionModifiedAsync (example_view 1)]
                  (hit (example_view 0) example_init))) !! 1 = Some 2)
    as H2 by (by vm_compute).
  change (view_id (example_view 1)) with 1 in Ht1, Ht2.
  rewrite H1 in Ht1. rewrite H2 in Ht2. by simplify_eq.
Defined.

(** ** Syntax checks and the handlers that hit *)

Lemma check_syntax_records (view : View) (s : State) :
  view_syntax (check_syntax view s).2 !! view_id view = Some (syntax view).
Proof.
  destruct (decide (view_syntax s !! view_id view = Some (syntax view))) as [Heq|Hne].
  - by rewrite (check_syntax_same _ _ Heq).
  - rewrite (check_syntax_changed _ _ Hne). cbn [snd].
    unfold clear, Linter_clear_view. state_simpl.
    destruct (Linter_assign_frame view true
                (set_view_syntax (<[view_id view := syntax view]>) s))
      as (_ & _ & -> & _).
    state_simpl. apply lookup_insert_eq.
Qed.

Lemma hit_view_syntax (view : View) (s : State) :
  view_syntax (hit view s) = view_syntax (check_syntax view s).2.
Proof. unfold hit. by destruct (decide (view_size view = 0)). Qed.

Lemma hit_linted_views (view : View) (s : State) :
  linted_views (hit view s) = linted_views s ∪ {[view_id view]}.
Proof.
  destruct (check_syntax_frame view s) as (_ & _ & _ & _ & Hlinted & _).
  unfold hit, queue_hit. destruct (decide (view_size view = 0)); state_simpl;
    by rewrite Hlinted.
Qed.

Lemma on_open_settings_id (view : View) (s : State) : on_open_settings view s = s.
Proof.
  unfold on_open_settings, persist_update_user_settings.
  by destruct (is_settings_file view true s).
Qed.

(** What [on_new] leaves in the maps of the plugin instance. *)
Lemma on_new_tracker (view : View) (s : State) :
  loaded_views (on_new view s) = loaded_views s ∪ {[view_id view]}
  ∧ linted_views (on_new view s) = linted_views s
  ∧ view_syntax (on_new view s) = <[view_id view := syntax view]> (view_syntax s)
  ∧ last_hit_times (on_new view s) = last_hit_times s
  ∧ queue_clock (on_new view s) = queue_clock s
  ∧ queue_pending (on_new view s) = queue_pending s
  ∧ in_flight (on_new view s) = in_flight s
  ∧ persist_errors (on_new view s) = persist_errors s
  ∧ persist_highlights (on_new view s) = persist_highlights s
  ∧ ui (on_new view s) = ui s.
Proof.
  unfold on_new. rewrite on_open_settings_id.
  destruct (Linter_assign_frame view false
              (set_view_syntax (<[view_id view := syntax view]>)
                 (set_loaded_views (λ views, views ∪ {[view_id view]}) s)))
    as (-> & -> & -> & -> & -> & -> & -> & -> & -> & -> & _).
  by state_simpl.
Qed.

(** The settings and the registry are left alone by the calls below. *)
Lemma Linter_assign_settings (view : View) (reassign : bool) (s : State) :
  lint_mode (Linter_assign view reassign s) = lint_mode s
  ∧ show_errors_on_save (Linter_assign view reassign s) = show_errors_on_save s
  ∧ persist_views (Linter_assign view reassign s) = persist_views s.
Proof. unfold Linter_assign. by destruct (languages s (syntax view)). Qed.

Lemma check_syntax_settings (view : View) (s : State) :
  lint_mode (check_syntax view s).2 = lint_mode s
  ∧ show_errors_on_save (check_syntax view s).2 = show_errors_on_save s
  ∧ persist_views (check_syntax view s).2 = persist_views s.
Proof.
  destruct (decide (view_syntax s !! view_id view = Some (syntax view))) as [Heq|Hne].
  - by rewrite (check_syntax_same _ _ Heq).
  - rewrite (check_syntax_changed _ _ Hne). cbn [snd].
    unfold clear, Linter_clear_view. state_simpl.
    by destruct (Linter_assign_settings view true
                   (set_view_syntax (<[view_id view := syntax view]>) s))
      as (-> & -> & ->).
Qed.


(** X7: once [check_syntax], [hit] or [on_new] has run for a view, a
    [check_syntax] for a view with the same id and syntax returns [False]
    and leaves the state untouched: the syntax is recorded by all three, so
    the linters are not assigned again and nothing is cleared. *)
Theorem check_syntax_settles (view view' : View) (s : State) :
  view_id view' = view_id view → syntax view' = syntax view →
  check_syntax view' (check_syntax view s).2 = (false, (check_syntax view s).2)
  ∧ check_syntax view' (hit view s) = (false, hit view s)
  ∧ check_syntax view' (on_new view s) = (false, on_new view s).
Proof.
  intros Hid Hsyntax. repeat split; apply check_syntax_same;
    rewrite Hid, Hsyntax.
  - apply check_syntax_records.
  - rewrite hit_view_syntax. apply check_syntax_records.
  - destruct (on_new_tracker view s) as (_ & _ & -> & _). apply lookup_insert_eq.
Qed.

Lemma check_syntax_settles_witness :
  check_syntax (example_view 3) (hit (example_view 0) example_init)
  = (false, hit (example_view 0) example_init).
Proof.
  by destruct (check_syntax_settles (example_view 0) (example_view 3) example_init)
    as (_ & Hhit & _).
Defined.

(** X8: for a view that has linters, [on_modified] skips its own call of
    [check_syntax]. In background mode it is [hit], and it is [hit] that
    checks the syntax: the syntax of the view ends up recorded. In every
    other mode it is [clear] and the syntax is not checked at all: the
    recorded syntax and the linters stay as they are, also when the view
    has another syntax by now, and no lint is requested: the queue, the
    lints in flight and [last_hit_times] stay as they are while the errors
    and highlights stored for the view are gone. *)
Theorem on_modified_with_linters (view : View) (s : State) :
  is_Some (persist_linters s !! view_id view) →
  (lint_mode s = "background" →
   on_modified view s = hit view s
   ∧ view_syntax (on_modified view s) !! view_id view = Some (syntax view))
  ∧ (lint_mode s ≠ "background" →
     on_modified view s = clear view s
     ∧ queue_clock (on_modified view s) = queue_clock s
     ∧ queue_pending (on_modified view s) = queue_pending s
     ∧ in_flight (on_modified view s) = in_flight s
     ∧ last_hit_times (on_modified view s) = last_hit_times s
     ∧ linted_views (on_modified view s) = linted_views s
     ∧ view_syntax (on_modified view s) = view_syntax s
     ∧ persist_linters (on_modified view s) = persist_linters s
     ∧ persist_errors (on_modified view s) !! view_id view = None
     ∧ persist_highlights (on_modified view s) !! view_id view = None).
Proof.
  intros Hlinters. unfold on_modified.
  rewrite decide_False by (intros Hnone; rewrite Hnone in Hlinters; by destruct Hlinters).
  cbn [orb]. split.
  - intros Hmode. rewrite bool_decide_eq_true_2 by done.
    split; [done|]. rewrite hit_view_syntax. apply check_syntax_records.
  - intros Hmode. rewrite bool_decide_eq_false_2 by done.
    unfold clear, Linter_clear_view. state_simpl.
    by rewrite !lookup_delete_eq.
Qed.

Lemma on_modified_with_linters_witness :
  on_modified (example_view 0)
    (set_settings "manual" false (hit (example_view 0) example_init))
  = clear (example_view 0)
      (set_settings "manual" false (hit (example_view 0) example_init))
  ∧ on_modified (example_view 0) (hit (example_view 0) example_init)
    = hit (example_view 0) (hit (example_view 0) example_init).
Proof.
  destruct (on_modified_with_linters (example_view 0)
              (set_settings "manual" false (hit (example_view 0) example_init)))
    as [_ Hclear]; [vm_compute; by eexists|].
  destruct (on_modified_with_linters (example_view 0)
              (hit (example_view 0) example_init))
    as [Hhit _]; [vm_compute; by eexists|].
  split.
  - apply Hclear. by vm_compute.
  - apply Hhit. by vm_compute.
Defined.

(** X9: for a view without linters, [on_modified] changes nothing when the
    recorded syntax is the one of the view; when it is not, the syntax is
    recorded and the view is hit whatever the lint mode is: a view with
    content gets a new timestamp and a pending request also in manual
    mode. *)
Theorem on_modified_without_linters (view : View) (s : State) :
  persist_linters s !! view_id view = None →
  (view_syntax s !! view_id view = Some (syntax view) → on_modified view s = s)
  ∧ (view_syntax s !! view_id view ≠ Some (syntax view) →
     on_modified view s = hit view (check_syntax view s).2
     ∧ view_id view ∈ linted_views (on_modified view s)
     ∧ (view_size view ≠ 0 →
        last_hit_times (on_modified view s) !! view_id view
        = Some (queue_clock s + 1)
        ∧ queue_pending (on_modified view s) !! view_id view
          = Some (queue_clock s + 1))).
Proof.
  intros Hlinters. unfold on_modified. rewrite decide_True by done. split.
  - intros Hsame. by rewrite (check_syntax_same _ _ Hsame).
  - intros Hchanged.
    destruct (check_syntax_frame view s) as (Hclock & _).
    rewrite (check_syntax_changed _ _ Hchanged) in *. cbn [negb orb fst snd] in *.
    set (s1 := clear view _) in *.
    split; [done|]. split.
    { rewrite hit_linted_views. apply elem_of_union_r. by apply elem_of_singleton. }
    intros Hsize.
    destruct (hit_size_nonzero view s1 Hsize) as [Hc Ht].
    destruct (check_syntax_frame view s1) as (Hclock1 & _). cbn zeta in Hclock1.
    rewrite Ht, Hclock1, Hclock, lookup_insert_eq. split; [done|].
    unfold hit. rewrite decide_False by done. unfold queue_hit. state_simpl.
    by rewrite lookup_insert_eq, Hclock1, Hclock.
Qed.

Lemma on_modified_without_linters_witness :
  last_hit_times
    (on_modified (example_view 0)
       (init "manual" false
          (λ syntax, if decide (syntax = "Python") then [linter_a] else [])
          "sublimelinter.py" "SublimeLinter")) !! 1 = Some 1.
Proof.
  destruct (on_modified_without_linters (example_view 0)
              (init "manual" false
                 (λ syntax, if decide (syntax = "Python") then [linter_a] else [])
                 "sublimelinter.py" "SublimeLinter")) as [_ Hchanged];
    [by vm_compute|].
  destruct Hchanged as (_ & _ & Hhit); [by vm_compute|].
  destruct Hhit as [Htime _]; [by vm_compute|]. exact Htime.
Defined.



(** ** Saving and linting *)

Lemma clear_frame (view : View) (s : State) :
  lint_mode (clear view s) = lint_mode s
  ∧ show_errors_on_save (clear view s) = show_errors_on_save s
  ∧ persist_linters (clear view s) = persist_linters s
  ∧ last_hit_times (clear view s) = last_hit_times s
  ∧ queue_clock (clear view s) = queue_clock s
  ∧ queue_pending (clear view s) = queue_pending s.
Proof. done. Qed.

Lemma lint_frame (vid : Z) (hit_time : option Z) (s : State) :
  last_hit_times (lint vid hit_time s) = last_hit_times s
  ∧ queue_clock (lint vid hit_time s) = queue_clock s
  ∧ queue_pending (lint vid hit_time s) = queue_pending s
  ∧ ui (lint vid hit_time s) = ui s
  ∧ persist_errors (lint vid hit_time s) = persist_errors s.
Proof. unfold lint. by destruct (Linter_get_view vid s). Qed.

(** The linters of the view after a changed syntax was recorded. *)
Lemma check_syntax_changed_linters (view : View) (s : State) :
  view_syntax s !! view_id view ≠ Some (syntax view) →
  is_Some (persist_linters (check_syntax view s).2 !! view_id view)
  ↔ languages s (syntax view) ≠ [].
Proof.
  intros Hne. rewrite (check_syntax_changed _ _ Hne). cbn [snd].
  unfold clear, Linter_clear_view. state_simpl.
  rewrite Linter_assign_linters. state_simpl.
  destruct (languages s (syntax view)); split; try done;
    first [by intros [? [=]] | by eexists].
Qed.

(** X11: saving a file that is neither the project file nor a
    [.sublimelinterrc] never hits: [last_hit_times] and the queue stay as
    they are. With the syntax unchanged the view is linted, without a hit
    time, exactly when [show_errors_on_save] is set or the mode is
    "load/save" or "save only", and all errors are shown exactly when
    [show_errors_on_save] is set. With a changed syntax the view is cleared
    once more after [check_syntax], linted exactly when the new syntax has
    linters and the mode is not "manual", and the errors are shown only if
    it is linted and [show_errors_on_save] is set. *)
Theorem on_post_save_ordinary_file (view : View) (s : State) (name : string) :
  view_file_name view = Some name →
  view_project_file_name view ≠ Some name →
  os_path.basename name ≠ ".sublimelinterrc" →
  let changed := (check_syntax view s).1 in
  let s1 := if changed then clear view (check_syntax view s).2 else s in
  let lints :=
    if changed
    then bool_decide (languages s (syntax view) ≠ [])
         && bool_decide (lint_mode s ≠ "manual")
    else show_errors_on_save s || bool_decide (lint_mode s = "load/save")
         || bool_decide (lint_mode s = "save only") in
  let shows :=
    if changed then show_errors_on_save s && lints else show_errors_on_save s in
  let s2 := if lints then lint (view_id view) None s1 else s1 in
  let s3 := if shows
            then emit (RunCommand (view_id view) "sublimelinter_show_all_errors") s2
            else s2 in
  on_post_save view s = Ok s3
  ∧ last_hit_times s3 = last_hit_times s
  ∧ queue_clock s3 = queue_clock s
  ∧ queue_pending s3 = queue_pending s.
Proof.
  intros Hname Hproject Hbase changed s1 lints shows s2 s3.
  assert (last_hit_times s1 = last_hit_times s ∧ queue_clock s1 = queue_clock s
          ∧ queue_pending s1 = queue_pending s) as (Ht1 & Hc1 & Hp1).
  { unfold s1. destruct changed; [|done].
    unfold clear, Linter_clear_view. state_simpl.
    by destruct (check_syntax_frame view s) as (-> & -> & _ & -> & _). }
  assert (last_hit_times s3 = last_hit_times s ∧ queue_clock s3 = queue_clock s
          ∧ queue_pending s3 = queue_pending s) as Hframe.
  { unfold s3, s2. destruct (lint_frame (view_id view) None s1) as (Ht & Hc & Hp & _).
    destruct shows, lints; state_simpl; by rewrite ?Ht, ?Hc, ?Hp. }
  split; [|exact Hframe]. clear Hframe Ht1 Hc1 Hp1.
  unfold on_post_save.
  rewrite decide_False by (by rewrite Hname).
  rewrite Hname, bind_Ok, decide_False by done.
  destruct (check_syntax_settings view s) as (Hmode & Hshow & _).
  destruct (decide (view_syntax s !! view_id view = Some (syntax view))) as [Hsame|Hchanged].
  - subst s3 s2 shows lints s1 changed. clear Hmode Hshow.
    rewrite (check_syntax_same _ _ Hsame). cbn [fst snd].
    destruct (show_errors_on_save s); cbn [orb]; [done|].
    destruct (bool_decide (lint_mode s = "load/save")); cbn [orb]; [done|].
    destruct (bool_decide (lint_mode s = "save only")); cbn [orb]; [done|].
    by destruct (decide (lint_mode s = "manual")).
  - pose proof (check_syntax_changed_linters view s Hchanged) as Hlinters.
    subst s3 s2 shows lints s1 changed.
    rewrite (check_syntax_changed _ _ Hchanged) in *. cbn [fst snd] in *.
    set (s1 := clear view _) in *.
    change (persist_linters (clear view s1)) with (persist_linters s1).
    rewrite Hmode, Hshow.
    destruct (decide (is_Some (persist_linters s1 !! view_id view))) as [Hsome|Hnone].
    + rewrite (bool_decide_eq_true_2 _ (proj1 Hlinters Hsome)). cbn [andb].
      destruct (decide (lint_mode s ≠ "manual")) as [Hmanual|Hmanual].
      * rewrite (bool_decide_eq_true_2 _ Hmanual).
        rewrite andb_true_r. by destruct (show_errors_on_save s).
      * rewrite (bool_decide_eq_false_2 _ Hmanual). by rewrite andb_false_r.
    + rewrite bool_decide_eq_false_2 by (intros Hl; by apply Hnone, Hlinters).
      cbn [andb]. by rewrite andb_false_r.
Qed.

Lemma on_post_save_ordinary_file_witness :
  last_hit_times (returned (on_post_save (example_view 0) before_save) before_save)
  = last_hit_times before_save.
Proof.
  destruct (on_post_save_ordinary_file (example_view 0) before_save
              "/home/user/project/main.py") as (Hsave & Htimes & _);
    [reflexivity|discriminate|by vm_compute|].
  rewrite Hsave. exact Htimes.
Defined.

(** The sections built by the loop of [lint]. *)
Lemma lint_sections_lookup (view : View) (selectors : list (string * Linter))
  (sections : gmap string (list (Z * Z * Z))) (sel : string) :
  foldl (λ (sections : gmap string (list (Z * Z * Z))) '(sel, _),
           <[sel := (λ region, ((view_rowcol view (region_a region)).1,
                                region_a region, region_b region))
                      <$> view_find_by_selector view sel]> sections)
        sections selectors !! sel
  = if decide (sel ∈ selectors.*1)
    then Some ((λ region, ((view_rowcol view (region_a region)).1,
                           region_a region, region_b region))
                 <$> view_find_by_selector view sel)
    else sections !! sel.
Proof.
  revert sections.
  induction selectors as [|[sel' linter] selectors IH]; intros sections.
  - cbn [foldl]. rewrite decide_False; [done|]. cbn. by intros ?%elem_of_nil.
  - cbn [foldl]. rewrite IH, fmap_cons. cbn [fst].
    destruct (decide (sel ∈ selectors.*1)) as [Hin|Hnotin].
    + rewrite decide_True; [done|]. by right.
    + destruct (decide (sel' = sel)) as [->|Hne].
      * rewrite lookup_insert_eq, decide_True; [done|]. by left.
      * rewrite lookup_insert_ne by done. rewrite decide_False; [done|].
        intros [?|?]%elem_of_cons; congruence.
Qed.

(** X12: [lint] for an id without a live view does nothing. For a live
    view it requests exactly one lint, after those already in flight, with
    the file name and the text of the view and the hit time it was given;
    the request has a section for each selector of the linters of the view
    and for no other, listing for every region found by the selector the
    row of its start and its two ends. Nothing else changes. *)
Theorem lint_request (view_id : Z) (hit_time : option Z) (s : State) :
  (Linter_get_view view_id s = None → lint view_id hit_time s = s)
  ∧ ∀ view, Linter_get_view view_id s = Some view →
      ∃ sections,
        lint view_id hit_time s
        = set_in_flight
            (λ reqs, reqs ++ [{| req_view_id := view_id;
                                 req_filename := view_file_name view;
                                 req_code := view_text view;
                                 req_sections := sections;
                                 req_hit_time := hit_time |}]) s
        ∧ ∀ sel,
            sections !! sel
            = if decide (sel ∈ (Linter_get_selectors view_id s).*1)
              then Some ((λ region, ((view_rowcol view (region_a region)).1,
                                     region_a region, region_b region))
                           <$> view_find_by_selector view sel)
              else None.
Proof.
  unfold lint. split.
  - by intros ->.
  - intros view ->. eexists. split; [reflexivity|].
    intros sel. rewrite lint_sections_lookup, lookup_empty. done.
Qed.

Lemma lint_request_witness :
  ∃ sections,
    lint 1 (Some 7) before_save
    = set_in_flight
        (λ reqs, reqs ++ [{| req_view_id := 1;
                             req_filename := Some "/home/user/project/main.py";
                             req_code := "import os";
                             req_sections := sections;
                             req_hit_time := Some 7 |}]) before_save.
Proof.
  destruct (lint_request 1 (Some 7) before_save) as [_ Hlive].
  destruct (Hlive (example_view 0)) as (sections & Hlint & _); [by vm_compute|].
  exists sections. exact Hlint.
Defined.

(** ** One view at a time *)

Lemma bool_decide_union_ne (k v : Z) (X : gset Z) :
  k ≠ v → bool_decide (k ∈ X ∪ {[v]}) = bool_decide (k ∈ X).
Proof.
  intros Hne. apply bool_decide_ext.
  rewrite elem_of_union, elem_of_singleton. tauto.
Qed.

Lemma bool_decide_difference_ne (k v : Z) (X : gset Z) :
  k ≠ v → bool_decide (k ∈ X ∖ {[v]}) = bool_decide (k ∈ X).
Proof.
  intros Hne. apply bool_decide_ext.
  rewrite elem_of_difference, elem_of_singleton. tauto.
Qed.

(** Close the goal [entries k s' = entries k s] for an [s'] built from [s]
    with updates at another key. *)
Ltac entries_ne :=
  unfold entries; state_simpl;
  rewrite ?lookup_insert_ne, ?lookup_delete_ne, ?lookup_alter_ne,
    ?bool_decide_union_ne, ?bool_decide_difference_ne by done;
  reflexivity.

Lemma Linter_assign_entries (view : View) (reassign : bool) (s : State) (k : Z) :
  k ≠ view_id view → entries k (Linter_assign view reassign s) = entries k s.
Proof.
  intros Hne. unfold Linter_assign.
  destruct (languages s (syntax view)); entries_ne.
Qed.

Lemma clear_entries (view : View) (s : State) (k : Z) :
  k ≠ view_id view → entries k (clear view s) = entries k s.
Proof. intros Hne. unfold clear, Linter_clear_view. entries_ne. Qed.

Lemma check_syntax_entries (view : View) (s : State) (k : Z) :
  k ≠ view_id view → entries k (check_syntax view s).2 = entries k s.
Proof.
  intros Hne.
  destruct (decide (view_syntax s !! view_id view = Some (syntax view))) as [Heq|Hchanged].
  - by rewrite (check_syntax_same _ _ Heq).
  - rewrite (check_syntax_changed _ _ Hchanged). cbn [snd].
    rewrite clear_entries, Linter_assign_entries by done. entries_ne.
Qed.

Lemma hit_entries (view : View) (s : State) (k : Z) :
  k ≠ view_id view → entries k (hit view s) = entries k s.
Proof.
  intros Hne. rewrite <-(check_syntax_entries view s k Hne).
  unfold hit, queue_hit. destruct (decide (view_size view = 0)); entries_ne.
Qed.

Lemma on_new_entries (view : View) (s : State) (k : Z) :
  k ≠ view_id view → entries k (on_new view s) = entries k s.
Proof.
  intros Hne. unfold on_new. rewrite on_open_settings_id.
  rewrite Linter_assign_entries by done. entries_ne.
Qed.

Lemma on_modified_entries (view : View) (s : State) (k : Z) :
  k ≠ view_id view → entries k (on_modified view s) = entries k s.
Proof.
  intros Hne. unfold on_modified.
  destruct (decide (persist_linters s !! view_id view = None)).
  - pose proof (check_syntax_entries view s k Hne) as Hcs.
    destruct (check_syntax view s) as [changed s1]. cbn [snd] in Hcs.
    destruct changed; cbn [negb orb]; [|done].
    by rewrite hit_entries.
  - cbn [orb]. destruct (bool_decide (lint_mode s = "background"));
      [by apply hit_entries|by apply clear_entries].
Qed.

Lemma on_selection_modified_async_entries (view : View) (s s' : State) (k : Z) :
  on_selection_modified_async view s = Ok s' → entries k s' = entries k s.
Proof.
  rewrite on_selection_modified_async_Ok. intros [= <-].
  destruct (persist_errors s !! view_id view) as [errors|]; [|done].
  by destruct (decide (errors ≠ ∅)).
Qed.

Lemma on_activated_entries (view : View) (s s' : State) (k : Z) :
  k ≠ view_id view → on_activated view s = Ok s' → entries k s' = entries k s.
Proof.
  intros Hne. unfold on_activated, persist_load_settings.
  intros ->%(on_selection_modified_async_entries _ _ _ k).
  rewrite <-(check_syntax_entries view s k Hne).
  set (s1 := (check_syntax view s).2).
  destruct (decide (view_id view ∉ linted_views s1)); [|done].
  destruct (decide (view_id view ∉ loaded_views s1)).
  - rewrite <-(on_new_entries view s1 k Hne).
    destruct (_ || _); [by apply hit_entries|done].
  - destruct (_ || _); [by apply hit_entries|done].
Qed.

Lemma highlight_entries (view : View) (linters : list Linter)
  (hit_time : option Z) (s s' : State) (k : Z) :
  k ≠ view_id view → highlight view linters hit_time s = Ok s' →
  entries k s' = entries k s.
Proof.
  intros Hne. rewrite highlight_unfold.
  destruct (match hit_time with Some _ => _ | None => _ end).
  - intros [= <-]. entries_ne.
  - intros ->%(on_selection_modified_async_entries _ _ _ k). entries_ne.
Qed.

Lemma on_close_entries (view : View) (s : State) (k : Z) :
  k ≠ view_id view → entries k (returned (on_close view s) s) = entries k s.
Proof.
  intros Hne. rewrite on_close_Ok. cbn [returned].
  unfold persist_view_did_close. entries_ne.
Qed.

Lemma lint_entries (vid : Z) (hit_time : option Z) (s : State) (k : Z) :
  entries k (lint vid hit_time s) = entries k s.
Proof. unfold lint. by destruct (Linter_get_view vid s). Qed.

Lemma Linter_redraw_all_entries (s : State) (k : Z) :
  entries k (Linter_redraw_all s) = entries k s.
Proof.
  unfold Linter_redraw_all. generalize (map_to_list (persist_highlights s)).
  intros l. revert s. induction l as [|[vid highlights] l IH]; intros s; [done|].
  cbn [foldl]. by rewrite IH.
Qed.

(** One operation leaves alone the entries of the ids it is not about. *)
Lemma run_entries (o : op) (s : State) (k : Z) :
  ¬ concerns o k → entries k (run o s) = entries k s.
Proof.
  intros Hk. destruct o; cbn [run concerns] in *.
  - by apply on_modified_entries.
  - by apply on_new_entries.
  - destruct (on_activated view s) as [s'|] eqn:Hs'; [|done].
    by apply (on_activated_entries view s).
  - by apply on_new_entries.
  - by rewrite on_open_settings_id.
  - destruct (on_selection_modified_async view s) as [s'|] eqn:Hs'; [|done].
    by apply (on_selection_modified_async_entries view s).
  - unfold on_pre_save, persist_copy_settings. by destruct (_ && _).
  - done.
  - by apply on_close_entries.
  - destruct relint; [done|]. apply Linter_redraw_all_entries.
  - done.
  - by apply hit_entries.
  - apply lint_entries.
  - destruct (highlight view linters hit_time s) as [s'|] eqn:Hs'; [|done].
    by apply (highlight_entries view linters hit_time s).
  - done.
  - done.
Qed.


(** X13: operations change what is kept for a view id (its membership
    in [loaded_views] and [linted_views], its recorded syntax, last hit
    time, errors, highlights, linters and pending request) only when one of
    them is about that id: a handler called with a view, [hit] and a
    completion touch the entries of their own view only; a lint started by
    the queue, a redraw and a change of the settings touch none. *)
Theorem other_views_untouched (ops : list op) (s : State) (k : Z) :
  Forall (λ o, ¬ concerns o k) ops → entries k (run_all ops s) = entries k s.
Proof.
  intros Hops. revert s. induction Hops as [|o ops Ho _ IH]; intros s; [done|].
  cbn [run_all foldl]. fold (run_all ops (run o s)).
  by rewrite IH, run_entries.
Qed.

Lemma other_views_untouched_witness :
  entries 2 (run_all [Hit (example_view 0); Completed (example_view 1) [linter_a] (Some 1);
                      OnClose (example_view 0)] example_init)
  = entries 2 example_init.
Proof.
  apply (other_views_untouched
           [Hit (example_view 0); Completed (example_view 1) [linter_a] (Some 1);
            OnClose (example_view 0)] example_init 2).
  repeat constructor; cbn; discriminate.
Defined.

(** ** All views, and a view from open to close *)

(** One turn of the loop of [lint_all_views]. *)
Lemma lint_all_views_step_entries (view : View) (s : State) (k : Z) :
  (k = view_id view → persist_linters s !! k = None) →
  entries k (if decide (is_Some (persist_linters s !! view_id view))
             then hit view s else s) = entries k s.
Proof.
  intros Hk. destruct (decide (is_Some (persist_linters s !! view_id view)))
    as [Hsome|Hnone]; [|done].
  apply hit_entries. intros ->. rewrite Hk in Hsome by done. by destruct Hsome.
Qed.

Lemma entries_linters (k : Z) (s s' : State) :
  entries k s' = entries k s → persist_linters s' !! k = persist_linters s !! k.
Proof. unfold entries. by intros [=]. Qed.

Lemma entries_times (k : Z) (s s' : State) :
  entries k s' = entries k s → last_hit_times s' !! k = last_hit_times s !! k.
Proof. unfold entries. by intros [=]. Qed.

(** The loop leaves alone an id without linters and an id of none of the
    views. *)
Lemma lint_all_views_loop_entries (views : list View) (s : State) (k : Z) :
  persist_linters s !! k = None ∨ k ∉ view_id <$> views →
  entries k (foldl (λ s view,
                      if decide (is_Some (persist_linters s !! view_id view))
                      then hit view s else s) s views) = entries k s.
Proof.
  revert s. induction views as [|view views IH]; intros s Hk; [done|].
  cbn [foldl].
  assert (k = view_id view → persist_linters s !! k = None) as Hstep.
  { intros ->. destruct Hk as [Hnone|Hnotin]; [done|].
    destruct Hnotin. rewrite fmap_cons. by left. }
  pose proof (lint_all_views_step_entries view s k Hstep) as Hentries.
  rewrite IH; [done|].
  destruct Hk as [Hnone|Hnotin].
  - left. by rewrite (entries_linters _ _ _ Hentries).
  - right. intros Hin. apply Hnotin. rewrite fmap_cons. by right.
Qed.

Lemma lint_all_views_loop_clock (views : list View) (s : State) :
  queue_clock s
  ≤ queue_clock (foldl (λ s view,
                          if decide (is_Some (persist_linters s !! view_id view))
                          then hit view s else s) s views).
Proof.
  apply advances_foldl. intros s1 view.
  destruct (decide (is_Some (persist_linters s1 !! view_id view)));
    [apply hit_advances|apply advances_refl].
Qed.

(** A view with linters and content is hit by the loop when no other view
    of the list has its id. *)
Lemma lint_all_views_loop_hits (views : list View) (s : State) (view : View) :
  NoDup (view_id <$> views) → view ∈ views →
  is_Some (persist_linters s !! view_id view) → view_size view ≠ 0 →
  ∃ t, last_hit_times
         (foldl (λ s view,
                   if decide (is_Some (persist_linters s !! view_id view))
                   then hit view s else s) s views) !! view_id view = Some t
    ∧ queue_clock s < t
    ∧ t ≤ queue_clock
            (foldl (λ s view,
                      if decide (is_Some (persist_linters s !! view_id view))
                      then hit view s else s) s views).
Proof.
  revert s. induction views as [|v views IH]; intros s Hnodup Hin Hlinters Hsize;
    [by apply elem_of_nil in Hin|].
  rewrite fmap_cons in Hnodup. apply NoDup_cons in Hnodup as [Hv Hnodup].
  cbn [foldl]. apply elem_of_cons in Hin as [->|Hin].
  - rewrite decide_True by done.
    destruct (hit_size_nonzero v s Hsize) as [Hclock Htimes].
    destruct (check_syntax_frame v s) as [Hcs _]. cbn zeta in Hcs.
    rewrite Hcs in Hclock, Htimes.
    pose proof (lint_all_views_loop_entries views (hit v s) (view_id v)
                  (or_intror Hv)) as Hrest%entries_times.
    pose proof (lint_all_views_loop_clock views (hit v s)) as Hmono.
    exists (queue_clock s + 1). rewrite Hrest, Htimes, lookup_insert_eq.
    split; [done|]. lia.
  - assert (view_id view ≠ view_id v) as Hne.
    { intros Heq. apply Hv. rewrite <-Heq. by apply list_elem_of_fmap_2. }
    set (s1 := if decide (is_Some (persist_linters s !! view_id v))
               then hit v s else s).
    assert (entries (view_id view) s1 = entries (view_id view) s) as Hentries.
    { apply lint_all_views_step_entries. by intros ?. }
    assert (queue_clock s ≤ queue_clock s1) as Hclock.
    { unfold s1. destruct (decide (is_Some (persist_linters s !! view_id v)));
        [apply hit_advances|lia]. }
    destruct (IH s1 Hnodup Hin) as (t & Ht & Hlt & Hle);
      [by rewrite (entries_linters _ _ _ Hentries)|done|].
    exists t. split; [done|]. lia.
Qed.

(** X14: [lint_all_views] leaves alone every view id without linters:
    what is kept for it is as before. When no two live views have the same
    id, every live view that has linters and content ends with a last hit
    time minted during the call. *)
Theorem lint_all_views_hits (s : State) (k : Z) (view : View) :
  (persist_linters s !! k = None →
   entries k (lint_all_views s) = entries k s)
  ∧ (NoDup (view_id <$> (map_to_list (persist_views s)).*2) →
     view ∈ (map_to_list (persist_views s)).*2 →
     is_Some (persist_linters s !! view_id view) → view_size view ≠ 0 →
     ∃ t, last_hit_times (lint_all_views s) !! view_id view = Some t
       ∧ queue_clock s < t ∧ t ≤ queue_clock (lint_all_views s)).
Proof.
  unfold lint_all_views. split.
  - intros Hnone. apply lint_all_views_loop_entries. by left.
  - apply lint_all_views_loop_hits.
Qed.

Lemma lint_all_views_hits_witness :
  entries 2 (lint_all_views (hit (example_view 0) before_save))
  = entries 2 (hit (example_view 0) before_save)
  ∧ ∃ t, last_hit_times (lint_all_views (hit (example_view 0) before_save)) !! 1
         = Some t
      ∧ queue_clock (hit (example_view 0) before_save) < t.
Proof.
  destruct (lint_all_views_hits (hit (example_view 0) before_save) 2
              (example_view 0)) as [Hnone Hhit].
  split; [apply Hnone; by vm_compute|].
  destruct Hhit as (t & Ht & Hlt & _).
  - vm_compute. apply NoDup_singleton.
  - vm_compute. by left.
  - vm_compute. by eexists.
  - done.
  - exists t. split; [exact Ht|exact Hlt].
Defined.

(** Operations about one view leave alone the entries of every other id. *)
Lemma run_all_entries (vid : Z) (ops : list op) (s : State) (k : Z) :
  Forall (λ o, ∀ k, concerns o k → k = vid) ops → k ≠ vid →
  entries k (run_all ops s) = entries k s.
Proof.
  intros Hops Hk. revert s. induction Hops as [|o ops Ho _ IH]; intros s; [done|].
  cbn [run_all foldl]. fold (run_all ops (run o s)).
  rewrite IH. apply run_entries. intros Hc. by apply Hk, Ho.
Qed.

Lemma bool_decide_eq_iff (P Q : Prop) `{!Decision P, !Decision Q} :
  bool_decide P = bool_decide Q → P ↔ Q.
Proof. intros Heq. by rewrite <-(bool_decide_spec P), Heq, bool_decide_spec. Qed.

(** What [on_close] leaves for its own view. *)
Lemma on_close_tracker (view : View) (s : State) :
  let s' := returned (on_close view s) s in
  loaded_views s' = loaded_views s ∖ {[view_id view]}
  ∧ linted_views s' = linted_views s ∖ {[view_id view]}
  ∧ view_syntax s' = delete (view_id view) (view_syntax s)
  ∧ last_hit_times s' = delete (view_id view) (last_hit_times s).
Proof. cbn zeta. by rewrite on_close_Ok. Qed.

(** X15: when a view id is unknown to the plugin instance, any operations
    about that view alone (loading, activating, modifying, hitting,
    completions, ...) followed by [on_close] leave [loaded_views],
    [linted_views], [view_syntax] and [last_hit_times] exactly as they were:
    a view leaves no trace in the maps of the instance once closed. *)
Theorem closed_view_leaves_no_trace (view : View) (ops : list op) (s : State) :
  view_id view ∉ loaded_views s → view_id view ∉ linted_views s →
  view_syntax s !! view_id view = None →
  last_hit_times s !! view_id view = None →
  Forall (λ o, ∀ k, concerns o k → k = view_id view) ops →
  let s' := run (OnClose view) (run_all ops s) in
  loaded_views s' = loaded_views s ∧ linted_views s' = linted_views s
  ∧ view_syntax s' = view_syntax s ∧ last_hit_times s' = last_hit_times s.
Proof.
  intros Hloaded Hlinted Hsyntax Htimes Hops s'.
  assert (∀ k, k ≠ view_id view → entries k s' = entries k s) as Hother.
  { intros k Hk. unfold s'. cbn [run]. rewrite on_close_entries by done.
    by apply (run_all_entries (view_id view)). }
  destruct (on_close_tracker view (run_all ops s)) as (Hl' & Hd' & Hs' & Ht').
  cbn zeta in Hl', Hd', Hs', Ht'. change (returned _ _) with s' in Hl', Hd', Hs', Ht'.
  repeat split.
  - apply set_eq. intros k. rewrite Hl', elem_of_difference, elem_of_singleton.
    destruct (decide (k = view_id view)) as [->|Hk]; [tauto|].
    specialize (Hother k Hk). unfold entries in Hother.
    injection Hother as Hx _. apply bool_decide_eq_iff in Hx.
    rewrite Hl', elem_of_difference, elem_of_singleton in Hx. tauto.
  - apply set_eq. intros k. rewrite Hd', elem_of_difference, elem_of_singleton.
    destruct (decide (k = view_id view)) as [->|Hk]; [tauto|].
    specialize (Hother k Hk). unfold entries in Hother.
    injection Hother as _ Hx _. apply bool_decide_eq_iff in Hx.
    rewrite Hd', elem_of_difference, elem_of_singleton in Hx. tauto.
  - apply map_eq. intros k. destruct (decide (k = view_id view)) as [->|Hk];
      [by rewrite Hs', lookup_delete_eq, Hsyntax|].
    specialize (Hother k Hk). unfold entries in Hother. by injection Hother.
  - apply map_eq. intros k. destruct (decide (k = view_id view)) as [->|Hk];
      [by rewrite Ht', lookup_delete_eq, Htimes|].
    specialize (Hother k Hk). unfold entries in Hother. by injection Hother.
Qed.

Lemma closed_view_leaves_no_trace_witness :
  let s' := run (OnClose (example_view 0))
              (run_all [OnActivated (example_view 0); OnModified (example_view 1);
                        Completed (example_view 1) [linter_a] (Some 2)]
                 example_init) in
  loaded_views s' = loaded_views example_init
  ∧ last_hit_times s' = last_hit_times example_init.
Proof.
  destruct (closed_view_leaves_no_trace (example_view 0)
              [OnActivated (example_view 0); OnModified (example_view 1);
               Completed (example_view 1) [linter_a] (Some 2)] example_init)
    as (Hloaded & _ & _ & Htimes).
  - apply not_elem_of_empty.
  - apply not_elem_of_empty.
  - apply lookup_empty.
  - apply lookup_empty.
  - repeat constructor; by intros k ->.
  - split; [exact Hloaded|exact Htimes].
Defined.

(** ** The maps of the plugin instance agree *)

Lemma tracked_same (s s' : State) :
  loaded_views s' = loaded_views s → linted_views s' = linted_views s →
  view_syntax s' = view_syntax s → last_hit_times s' = last_hit_times s →
  tracked s → tracked s'.
Proof. unfold tracked. by intros -> -> -> ->. Qed.

Lemma tracked_entries (s s' : State) :
  (∀ k, entries k s' = entries k s) → tracked s → tracked s'.
Proof.
  intros Hentries Ht vid. specialize (Hentries vid). unfold entries in Hentries.
  injection Hentries as Hloaded%bool_decide_eq_iff Hlinted%bool_decide_eq_iff
    Hsyntax Htimes _ _ _ _.
  destruct (Ht vid) as [Hs Hl]. rewrite Hloaded, Hlinted, Hsyntax, Htimes. tauto.
Qed.

Lemma check_syntax_view_syntax (view : View) (s : State) :
  view_syntax (check_syntax view s).2
  = <[view_id view := syntax view]> (view_syntax s).
Proof.
  destruct (decide (view_syntax s !! view_id view = Some (syntax view))) as [Heq|Hne].
  - rewrite (check_syntax_same _ _ Heq). cbn [snd]. symmetry. by apply insert_id.
  - rewrite (check_syntax_changed _ _ Hne). cbn [snd].
    unfold clear, Linter_clear_view. state_simpl.
    by destruct (Linter_assign_frame view true
                   (set_view_syntax (<[view_id view := syntax view]>) s))
      as (_ & _ & -> & _).
Qed.

Lemma check_syntax_tracked (view : View) (s : State) :
  tracked s → tracked (check_syntax view s).2.
Proof.
  intros Ht vid.
  destruct (check_syntax_frame view s) as (_ & _ & _ & -> & -> & ->).
  rewrite check_syntax_view_syntax. destruct (Ht vid) as [Hs Hl].
  split; [|done]. intros Hin.
  destruct (decide (vid = view_id view)) as [->|Hne].
  - rewrite lookup_insert_eq. by eexists.
  - rewrite lookup_insert_ne by done. auto.
Qed.

Lemma clear_tracked (view : View) (s : State) : tracked s → tracked (clear view s).
Proof. by apply tracked_same. Qed.

Lemma hit_tracked (view : View) (s : State) : tracked s → tracked (hit view s).
Proof.
  intros Ht%(check_syntax_tracked view) vid.
  pose proof (check_syntax_records view s) as Hrec.
  unfold hit, queue_hit. set (s1 := (check_syntax view s).2) in *.
  destruct (Ht vid) as [Hs Hl].
  destruct (decide (view_size view = 0)); state_simpl;
    rewrite elem_of_union, elem_of_singleton.
  - split; [|tauto]. intros [?|[?| ->]]; eauto.
  - split; [intros [?|[?| ->]]; eauto|].
    destruct (decide (vid = view_id view)) as [->|Hne]; [tauto|].
    rewrite lookup_insert_ne by done. tauto.
Qed.

Lemma on_new_tracked (view : View) (s : State) : tracked s → tracked (on_new view s).
Proof.
  intros Ht vid.
  destruct (on_new_tracker view s) as (-> & -> & -> & -> & _).
  destruct (Ht vid) as [Hs Hl]. split; [|done].
  rewrite elem_of_union, elem_of_singleton.
  destruct (decide (vid = view_id view)) as [->|Hne].
  - rewrite lookup_insert_eq. by eexists.
  - rewrite lookup_insert_ne by done. tauto.
Qed.

Lemma on_modified_tracked (view : View) (s : State) :
  tracked s → tracked (on_modified view s).
Proof.
  intros Ht. unfold on_modified.
  destruct (decide (persist_linters s !! view_id view = None)).
  - pose proof (check_syntax_tracked view s Ht) as Hcs.
    destruct (check_syntax view s) as [changed s1]. cbn [snd] in Hcs.
    destruct changed; cbn [negb orb]; [|done]. by apply hit_tracked.
  - cbn [orb]. destruct (bool_decide (lint_mode s = "background"));
      [by apply hit_tracked|by apply clear_tracked].
Qed.

Lemma on_selection_modified_async_tracked (view : View) (s s' : State) :
  on_selection_modified_async view s = Ok s' → tracked s → tracked s'.
Proof.
  intros Hs'. apply tracked_entries. intros k.
  by apply (on_selection_modified_async_entries view).
Qed.

Lemma on_activated_tracked (view : View) (s s' : State) :
  on_activated view s = Ok s' → tracked s → tracked s'.
Proof.
  unfold on_activated, persist_load_settings.
  intros Hs' Ht%(check_syntax_tracked view).
  apply (on_selection_modified_async_tracked _ _ _ Hs'). clear Hs'.
  set (s1 := (check_syntax view s).2) in *.
  destruct (decide (view_id view ∉ linted_views s1)); [|done].
  destruct (decide (view_id view ∉ loaded_views s1)).
  - apply (on_new_tracked view) in Ht.
    destruct (_ || _); [by apply hit_tracked|done].
  - destruct (_ || _); [by apply hit_tracked|done].
Qed.

Lemma highlight_tracked (view : View) (linters : list Linter)
  (hit_time : option Z) (s s' : State) :
  highlight view linters hit_time s = Ok s' → tracked s → tracked s'.
Proof.
  rewrite highlight_unfold.
  destruct (match hit_time with Some _ => _ | None => _ end).
  - intros [= <-]. by apply tracked_same.
  - intros Hs' Ht. apply (on_selection_modified_async_tracked _ _ _ Hs').
    revert Ht. by apply tracked_same.
Qed.

Lemma lint_tracked (vid : Z) (hit_time : option Z) (s : State) :
  tracked s → tracked (lint vid hit_time s).
Proof. apply tracked_entries. intros k. apply lint_entries. Qed.

Lemma lint_all_views_tracked (s : State) : tracked s → tracked (lint_all_views s).
Proof.
  unfold lint_all_views. generalize ((map_to_list (persist_views s)).*2).
  intros views. revert s. induction views as [|view views IH]; intros s Ht; [done|].
  cbn [foldl]. apply IH.
  destruct (decide (is_Some (persist_linters s !! view_id view)));
    [by apply hit_tracked|done].
Qed.

Lemma on_post_save_tracked (view : View) (s s' : State) :
  on_post_save view s = Ok s' → tracked s → tracked s'.
Proof.
  unfold on_post_save, persist_load_settings. intros Hs' Ht. revert Hs'.
  destruct (decide (view_project_file_name view = view_file_name view)).
  { intros [= <-]. by apply lint_all_views_tracked. }
  destruct (view_file_name view) as [file_name|]; [|done]. rewrite bind_Ok.
  destruct (decide (os_path.basename file_name = ".sublimelinterrc")).
  { destruct (decide (file_name = _)); intros [= <-];
      [done|by apply lint_all_views_tracked]. }
  pose proof (check_syntax_tracked view s Ht) as Hcs.
  destruct (check_syntax view s) as [changed s1]. cbn [snd] in Hcs.
  assert (∀ (show_errors : bool) (s2 : State), tracked s2 →
            (if show_errors
             then Ok (emit (RunCommand (view_id view) "sublimelinter_show_all_errors") s2)
             else Ok s2) = Ok s' → tracked s') as Hshow.
  { intros show_errors s2 Hs2. destruct show_errors; intros [= <-]; [|done].
    revert Hs2. by apply tracked_same. }
  pose proof (clear_tracked view s1 Hcs) as Hclear.
  pose proof (λ s2, lint_tracked (view_id view) None s2) as Hlint.
  destruct changed.
  - destruct (decide (is_Some (persist_linters (clear view s1) !! view_id view)));
      [destruct (decide (lint_mode s1 ≠ "manual"))|];
      first [apply Hshow; by auto | intros [= <-]; by auto].
  - destruct (_ || _); [|destruct (decide (lint_mode s1 = "manual"))];
      first [apply Hshow; by auto | intros [= <-]; by auto].
Qed.

Lemma on_close_tracked (view : View) (s : State) :
  tracked s → tracked (returned (on_close view s) s).
Proof.
  intros Ht vid. rewrite on_close_Ok. cbn [returned].
  unfold persist_view_did_close. state_simpl.
  rewrite !elem_of_difference, !elem_of_singleton.
  destruct (Ht vid) as [Hs Hl].
  destruct (decide (vid = view_id view)) as [->|Hne].
  - rewrite !lookup_delete_eq. split; [tauto|]. by intros [? [=]].
  - rewrite !lookup_delete_ne by done. tauto.
Qed.

Lemma run_tracked (o : op) (s : State) : tracked s → tracked (run o s).
Proof.
  intros Ht. destruct o; cbn [run].
  - by apply on_modified_tracked.
  - by apply on_new_tracked.
  - destruct (on_activated view s) as [s'|] eqn:Hs'; [|done].
    by apply (on_activated_tracked view s).
  - by apply on_new_tracked.
  - by rewrite on_open_settings_id.
  - destruct (on_selection_modified_async view s) as [s'|] eqn:Hs'; [|done].
    by apply (on_selection_modified_async_tracked view s).
  - unfold on_pre_save, persist_copy_settings. by destruct (_ && _).
  - destruct (on_post_save view s) as [s'|] eqn:Hs'; [|done].
    by apply (on_post_save_tracked view s).
  - by apply on_close_tracked.
  - destruct relint; [by apply lint_all_views_tracked|].
    revert Ht. apply tracked_entries. intros k. apply Linter_redraw_all_entries.
  - by apply lint_all_views_tracked.
  - by apply hit_tracked.
  - by apply lint_tracked.
  - destruct (highlight view linters hit_time s) as [s'|] eqn:Hs'; [|done].
    by apply (highlight_tracked view linters hit_time s).
  - revert Ht. by apply tracked_same.
  - revert Ht. by apply tracked_same.
Qed.

(** X16: in every state the plugin can reach, a view id in [loaded_views]
    or [linted_views] has a syntax recorded in [view_syntax], and a view id
    with an entry in [last_hit_times] is in [linted_views]: the four maps of
    the instance never disagree, whatever handlers, hits, lints and
    completions ran, and in whatever order. *)
Theorem reachable_tracked (s : State) (vid : Z) :
  reachable s →
  (vid ∈ loaded_views s ∨ vid ∈ linted_views s → is_Some (view_syntax s !! vid))
  ∧ (is_Some (last_hit_times s !! vid) → vid ∈ linted_views s).
Proof.
  intros (mode & show & langs & file & directory & ops & ->).
  assert (tracked (init mode show langs file directory)) as Hinit.
  { intros k. cbn. split.
    - by intros [?%not_elem_of_empty|?%not_elem_of_empty].
    - rewrite lookup_empty. by intros [? [=]]. }
  revert Hinit. generalize (init mode show langs file directory).
  unfold run_all. induction ops as [|o ops IH]; intros s0 Hs0; [apply Hs0|].
  cbn [foldl]. by apply IH, run_tracked.
Qed.

Lemma reachable_tracked_witness :
  1 ∈ linted_views hit_twice ∧ is_Some (view_syntax hit_twice !! 1).
Proof.
  destruct (reachable_tracked hit_twice 1) as [Hsyntax Hlinted].
  - by exists "background", false,
      (λ syntax, if decide (syntax = "Python") then [linter_a; linter_b] else []),
      "/packages/SublimeLinter/sublimelinter.py", "SublimeLinter",
      [Hit (example_view 0); Completed (example_view 0) [linter_a] (Some 1);
       Hit (example_view 0)].
  - assert (1 ∈ linted_views hit_twice) as Hin
      by (apply Hlinted; exists 2; by vm_compute).
    split; [exact Hin|]. apply Hsyntax. by right.
Defined.

(** ** Settings files *)

Lemma append_nil (b : string) : ("" ++ b)%string = b.
Proof. reflexivity. Qed.

Lemma append_cons (c : ascii) (a b : string) :
  (String c a ++ b)%string = String c (a ++ b)%string.
Proof. reflexivity. Qed.

Lemma string_append_assoc (a b c : string) :
  ((a ++ b) ++ c)%string = (a ++ (b ++ c))%string.
Proof. induction a as [|x a IH]; [done|]. by rewrite !append_cons, IH. Qed.

Lemma cut_no_sep (p : string) :
  ("/"%char ∉ String.list_ascii_of_string p) → os_path.cut p = None.
Proof.
  induction p as [|c p IH]; [done|]. cbn [String.list_ascii_of_string os_path.cut].
  intros Hnotin. rewrite IH.
  - rewrite decide_False; [done|]. intros ->. apply Hnotin. by left.
  - intros Hin. apply Hnotin. by right.
Qed.

Lemma cut_sep (a b : string) :
  ("/"%char ∉ String.list_ascii_of_string b) →
  os_path.cut (a ++ String "/" b) = Some ((a ++ "/")%string, b).
Proof.
  intros Hb. induction a as [|c a IH];
    rewrite ?append_nil, ?append_cons; cbn [os_path.cut].
  - by rewrite (cut_no_sep _ Hb), decide_True.
  - by rewrite IH.
Qed.

Lemma rstrip_sep_sep (a : string) :
  os_path.rstrip_sep (a ++ "/") = os_path.rstrip_sep a.
Proof.
  induction a as [|c a IH]; [done|].
  rewrite append_cons. cbn [os_path.rstrip_sep]. by rewrite IH.
Qed.

Lemma rstrip_sep_no_sep (p : string) :
  ("/"%char ∉ String.list_ascii_of_string p) → os_path.rstrip_sep p = p.
Proof.
  induction p as [|c p IH]; [done|]. cbn [String.list_ascii_of_string os_path.rstrip_sep].
  intros Hnotin. rewrite IH by (intros Hin; apply Hnotin; by right).
  destruct p; [|done]. rewrite decide_False; [done|].
  intros ->. apply Hnotin. by left.
Qed.

Lemma rstrip_sep_app (a p : string) :
  p ≠ "" → os_path.rstrip_sep p = p →
  os_path.rstrip_sep (a ++ p) = (a ++ p)%string.
Proof.
  intros Hne Hp. induction a as [|c a IH]; [done|].
  rewrite append_cons. cbn [os_path.rstrip_sep]. rewrite IH.
  destruct a; [by destruct p|done].
Qed.

(** [os.path.split] of a path that ends in [/parent/name]. *)
Lemma split_path (dir parent name : string) :
  parent ≠ "" →
  ("/"%char ∉ String.list_ascii_of_string parent) →
  ("/"%char ∉ String.list_ascii_of_string name) →
  os_path.split (dir ++ "/" ++ parent ++ "/" ++ name)
  = ((dir ++ "/" ++ parent)%string, name).
Proof.
  intros Hne Hparent Hname. unfold os_path.split.
  replace (dir ++ "/" ++ parent ++ "/" ++ name)%string
    with ((dir ++ "/" ++ parent) ++ String "/" name)%string
    by (by rewrite !string_append_assoc).
  rewrite (cut_sep _ _ Hname), rstrip_sep_sep.
  replace (dir ++ "/" ++ parent)%string with ((dir ++ "/") ++ parent)%string
    by (by rewrite !string_append_assoc).
  rewrite rstrip_sep_app by (by auto using rstrip_sep_no_sep).
  rewrite decide_False; [done|]. by destruct dir.
Qed.

Lemma basename_path (dir parent : string) :
  ("/"%char ∉ String.list_ascii_of_string parent) →
  os_path.basename (dir ++ "/" ++ parent) = parent.
Proof.
  intros Hparent. unfold os_path.basename, os_path.split.
  change ("/" ++ parent)%string with (String "/" parent).
  by rewrite (cut_sep _ _ Hparent).
Qed.

(** X17: for a file [.../parent/name], [is_settings_file] is true exactly
    when [name] is matched by [LINTER_SETTINGS_RE] and the directory
    [parent] is [User], or, unless [user_only] is set, the directory of the
    plugin. Only the last directory counts, whatever is above it. *)
Theorem is_settings_file_path (view : View) (user_only : bool) (s : State)
  (dir parent name : string) :
  view_file_name view = Some (dir ++ "/" ++ parent ++ "/" ++ name)%string →
  parent ≠ "" →
  ("/"%char ∉ String.list_ascii_of_string parent) →
  ("/"%char ∉ String.list_ascii_of_string name) →
  is_settings_file view user_only s
  = LINTER_SETTINGS_RE.is_match name
    && (bool_decide (parent = "User")
        || negb user_only && bool_decide (parent = PLUGIN_DIRECTORY s)).
Proof.
  intros Hfile Hne Hparent Hname. unfold is_settings_file.
  rewrite Hfile, decide_False by (by destruct dir).
  rewrite (split_path _ _ _ Hne Hparent Hname), (basename_path _ _ Hparent).
  destruct (LINTER_SETTINGS_RE.is_match name); [|done].
  destruct user_only; cbn [andb negb orb].
  - by rewrite orb_false_r.
  - apply orb_comm.
Qed.

Lemma is_settings_file_path_witness :
  is_settings_file
    {| view_id := 3; view_size := 0; view_sel := []; view_rowcol := λ _, (0, 0);
       view_file_name :=
         Some "/home/user/Packages/User/SublimeLinter-pyflakes.sublime-settings";
       view_project_file_name := None; view_is_active := true;
       view_find_by_selector := λ _, []; view_text := ""; syntax := "JSON" |}
    true example_init = true.
Proof.
  rewrite (is_settings_file_path _ true example_init "/home/user/Packages" "User"
             "SublimeLinter-pyflakes.sublime-settings"); [done|done|done|..].
  - apply (bool_decide_unpack _). by vm_compute.
  - apply (bool_decide_unpack _). by vm_compute.
Defined.

Lemma prefix_append (p s : string) :
  String.prefix p s = true ↔ ∃ rest, s = (p ++ rest)%string.
Proof.
  revert s. induction p as [|a p IH]; intros s.
  - split; [intros _; by exists s|]. intros _. by destruct s.
  - destruct s as [|b s]; [split; [done|by intros [? [=]]]|].
    cbn [String.prefix]. destruct (ascii_dec a b) as [->|Hne].
    + rewrite IH. split; intros [rest Hrest]; exists rest.
      * by rewrite append_cons, Hrest.
      * rewrite append_cons in Hrest. by injection Hrest.
    + split; [done|]. intros [rest Hrest]. rewrite append_cons in Hrest.
      by injection Hrest as -> _.
Qed.

Lemma substring_all (s : string) : String.substring 0 (String.length s) s = s.
Proof. induction s as [|c s IH]; [done|]. cbn. by rewrite IH. Qed.

Lemma substring_append (p rest : string) :
  String.substring (String.length p)
    (String.length (p ++ rest) - String.length p) (p ++ rest) = rest.
Proof.
  induction p as [|c p IH].
  - rewrite append_nil. cbn [String.length]. rewrite Nat.sub_0_r.
    apply substring_all.
  - rewrite append_cons. cbn [String.length String.substring Nat.sub]. apply IH.
Qed.

(** [.+?] followed by the suffix, at the start of [s]. *)
Lemma some_then_spec (suffix s : string) :
  LINTER_SETTINGS_RE.some_then suffix s = true ↔
  ∃ mid rest, mid ≠ "" ∧ ("010"%char ∉ String.list_ascii_of_string mid)
    ∧ s = (mid ++ suffix ++ rest)%string.
Proof.
  induction s as [|c s IH]; cbn [LINTER_SETTINGS_RE.some_then].
  - split; [done|]. intros (mid & rest & Hne & _ & Hs). by destruct mid.
  - destruct (decide (c = "010"%char)) as [->|Hc].
    + split; [done|]. intros (mid & rest & Hne & Hnl & Hs).
      destruct mid as [|c mid]; [done|]. rewrite append_cons in Hs.
      injection Hs as <- _. destruct Hnl. by left.
    + rewrite orb_true_iff, prefix_append, IH. split.
      * intros [[rest ->]|(mid & rest & Hne & Hnl & ->)].
        -- exists (String c ""), rest. split; [done|]. split; [|done].
           by intros [?|?%elem_of_nil]%elem_of_cons.
        -- exists (String c mid), rest. split; [done|]. split; [|done].
           by intros [?|?]%elem_of_cons.
      * intros (mid & rest & Hne & Hnl & Hs).
        destruct mid as [|c' mid]; [done|]. rewrite append_cons in Hs.
        injection Hs as <- ->. destruct mid as [|c'' mid].
        -- left. by exists rest.
        -- right. exists (String c'' mid), rest. split; [done|]. split; [|done].
           intros Hin. apply Hnl. by right.
Qed.

Lemma dash_then (g : string → bool) (s : string) :
  match s with
  | String "-" s' => g s'
  | _ => false
  end = true ↔ ∃ s', s = String "-" s' ∧ g s' = true.
Proof.
  destruct s as [|c s]; [split; [done|by intros (? & [=] & _)]|].
  destruct (decide (c = "-"%char)) as [->|Hc].
  - split; [by exists s|]. by intros (? & [= <-] & ?).
  - split; [|by intros (? & [= ->] & _)].
    destruct c as [[] [] [] [] [] [] [] []]; done.
Qed.

(** X18: [LINTER_SETTINGS_RE] matches a file name exactly when it starts
    with [SublimeLinter.sublime-settings], or with [SublimeLinter-], one or
    more characters other than newlines, and [.sublime-settings]. Nothing
    anchors the end: whatever follows the extension is accepted. *)
Theorem LINTER_SETTINGS_RE_matches (filename : string) :
  LINTER_SETTINGS_RE.is_match filename = true ↔
  (∃ rest, filename = ("SublimeLinter.sublime-settings" ++ rest)%string)
  ∨ (∃ mid rest, mid ≠ "" ∧ ("010"%char ∉ String.list_ascii_of_string mid)
       ∧ filename
         = ("SublimeLinter-" ++ mid ++ ".sublime-settings" ++ rest)%string).
Proof.
  unfold LINTER_SETTINGS_RE.is_match. rewrite andb_true_iff, prefix_append. split.
  - intros [[r ->] Hrest]. revert Hrest.
    change 13%nat with (String.length "SublimeLinter").
    rewrite substring_append, orb_true_iff, prefix_append, dash_then.
    intros [[rest ->]|(r' & -> & (mid & rest & Hne & Hnl & ->)%some_then_spec)].
    + left. by exists rest.
    + right. by exists mid, rest.
  - assert (∀ r, (String.prefix ".sublime-settings" r
                  || match r with
                     | String "-" r' =>
                       LINTER_SETTINGS_RE.some_then ".sublime-settings" r'
                     | _ => false
                     end) = true →
              (∃ rest, ("SublimeLinter" ++ r)%string = ("SublimeLinter" ++ rest)%string)
              ∧ (String.prefix ".sublime-settings"
                   (String.substring 13
                      (String.length ("SublimeLinter" ++ r) - 13)
                      ("SublimeLinter" ++ r))
                 || match String.substring 13
                            (String.length ("SublimeLinter" ++ r) - 13)
                            ("SublimeLinter" ++ r) with
                    | String "-" r' =>
                      LINTER_SETTINGS_RE.some_then ".sublime-settings" r'
                    | _ => false
                    end) = true) as Hrest.
    { intros r Hr. split; [by exists r|].
      change 13%nat with (String.length "SublimeLinter").
      by rewrite substring_append. }
    intros [[rest ->]|(mid & rest & Hne & Hnl & ->)].
    + apply (Hrest (".sublime-settings" ++ rest)%string).
      apply orb_true_iff. left. apply prefix_append. by exists rest.
    + apply (Hrest (String "-" (mid ++ ".sublime-settings" ++ rest))).
      apply orb_true_iff. right. apply some_then_spec. by exists mid, rest.
Qed.

(** ** Clearing a view while a lint is in flight *)

(** X19: neither [clear] nor [check_syntax] touches [last_hit_times], so a
    lint in flight is not cancelled by them: when its completion carries a
    hit time that is not older than the last hit time of the view, it is
    committed after [clear], which had just removed the errors of the view,
    and after [check_syntax], also when the syntax changed and other linters
    were bound to the view. *)
Theorem clear_keeps_lints_in_flight (view : View) (linters : list Linter)
  (t : Z) (s : State) :
  last_hit_time (view_id view) s ≤ t →
  (persist_errors (clear view s) !! view_id view = None
   ∧ ∃ s', highlight view linters (Some t) (clear view s) = Ok s'
       ∧ persist_errors s' !! view_id view = Some (collected_errors linters)
       ∧ ui s' = ui (clear view s) ++
           [Clear (view_id view) (collected_highlights linters);
            Draw (view_id view) (collected_highlights linters);
            status_event (view_id view) (collected_errors linters)
              (selection_line view)])
  ∧ (∃ s', highlight view linters (Some t) (check_syntax view s).2 = Ok s'
       ∧ persist_errors s' !! view_id view = Some (collected_errors linters)
       ∧ ui s' = ui (check_syntax view s).2 ++
           [Clear (view_id view) (collected_highlights linters);
            Draw (view_id view) (collected_highlights linters);
            status_event (view_id view) (collected_errors linters)
              (selection_line view)]).
Proof.
  intros Hfresh.
  assert (∀ s1, last_hit_times s1 = last_hit_times s →
            ∃ s', highlight view linters (Some t) s1 = Ok s'
              ∧ persist_errors s' !! view_id view = Some (collected_errors linters)
              ∧ ui s' = ui s1 ++
                  [Clear (view_id view) (collected_highlights linters);
                   Draw (view_id view) (collected_highlights linters);
                   status_event (view_id view) (collected_errors linters)
                     (selection_line view)]) as Hcommit.
  { intros s1 Htimes. eexists. split.
    - apply highlight_commits. intros ? [= <-].
      unfold last_hit_time in *. by rewrite Htimes.
    - state_simpl. by rewrite lookup_insert_eq, <-!app_assoc. }
  split; [split|].
  - unfold clear, Linter_clear_view. state_simpl. apply lookup_delete_eq.
  - by apply Hcommit.
  - apply Hcommit. by destruct (check_syntax_frame view s) as (_ & _ & _ & -> & _).
Qed.

Lemma clear_keeps_lints_in_flight_witness :
  persist_errors (clear (example_view 0) hit_twice) !! 1 = None
  ∧ ∃ s', highlight (example_view 0) [linter_b] (Some 2)
            (clear (example_view 0) hit_twice) = Ok s'
      ∧ persist_errors s' !! 1 = Some (collected_errors [linter_b]).
Proof.
  assert (last_hit_time 1 hit_twice = 2) as Htime by (by vm_compute).
  destruct (clear_keeps_lints_in_flight (example_view 0) [linter_b] 2 hit_twice)
    as [[Hnone (s' & Hs' & Herrors & _)] _].
  - change (last_hit_time 1 hit_twice ≤ 2). rewrite Htime. lia.
  - split; [exact Hnone|]. exists s'. split; [exact Hs'|exact Herrors].
Defined.
